(** * WhatsApp MCP client: conversation store, response extractor, session

    A shallow embedding of [utils/json_history.py],
    [agent/agent_data_extraction.py], [agent/agent_logging.py],
    [utils/cost_calculation.py], [tool_mcp/mcp_servers.py] and the
    [MCPClient] class of [client_v4.py], together with the properties of
    the conversation store, of the extractor and of the session life cycle.

    Python values are embedded as a small JSON-like universe, Python
    exceptions as an error monad over the classes the code can meet, a
    [dict] as a [gmap] with [string] keys. *)

From stdpp Require Import gmap strings list fin_maps.
From Stdlib Require Import ZArith.

Set Warnings "-register-all".

(* ===================================================================== *)
(** ** Python values and exceptions *)
(* ===================================================================== *)

Module Py.

(** The values that travel through the code: what [json.loads] can
    return and what LangChain puts into message fields. *)
Inductive pyval : Type :=
  | PNone
  | PBool (b : bool)
  | PInt (z : Z)
  | PStr (s : string)
  | PList (l : list pyval)
  | PDict (d : gmap string pyval).

(** Exception classes.  The last three derive from [BaseException]
    only, so an [except Exception] clause lets them through. *)
Inductive exn_class : Type :=
  | TimeoutError
  | AttributeError
  | IndexError
  | KeyError
  | TypeError
  | ValueError
  | RuntimeError
  | OtherError (name : string)
  | CancelledError
  | KeyboardInterrupt
  | SystemExit.

Record exn : Type := Exn { exn_cls : exn_class; exn_msg : string }.

(** [isinstance(e, Exception)] *)
Definition is_Exception (e : exn) : bool :=
  match exn_cls e with
  | CancelledError | KeyboardInterrupt | SystemExit => false
  | _ => true
  end.

(** [isinstance(e, asyncio.TimeoutError)] *)
Definition is_TimeoutError (e : exn) : bool :=
  match exn_cls e with
  | TimeoutError => true
  | _ => false
  end.

(** A computation either returns or raises. *)
Inductive result (A : Type) : Type :=
  | Ok (a : A)
  | Raise (e : exn).
Arguments Ok {A} a.
Arguments Raise {A} e.

#[export] Instance result_ret : MRet result := λ A a, Ok a.
#[export] Instance result_bind : MBind result := λ A B f m,
  match m with
  | Ok a => f a
  | Raise e => Raise e
  end.

Definition raise {A} (c : exn_class) (msg : string) : result A :=
  Raise (Exn c msg).

(** Truth value of an object in a condition. *)
Definition truthy (v : pyval) : bool :=
  match v with
  | PNone => false
  | PBool b => b
  | PInt z => negb (z =? 0)%Z
  | PStr s => negb (String.eqb s "")
  | PList l => match l with [] => false | _ => true end
  | PDict d => negb (bool_decide (d = ∅))
  end.

(** [v.get(key, default)]: only a dict has the method. *)
Definition py_get (v : pyval) (key : string) (dflt : pyval)
  : result pyval :=
  match v with
  | PDict d => Ok (default dflt (d !! key))
  | _ => raise AttributeError "get"
  end.

(** [v[0]] *)
Definition py_first (v : pyval) : result pyval :=
  match v with
  | PList (x :: _) => Ok x
  | PList [] => raise IndexError "list index out of range"
  | PStr (String a _) => Ok (PStr (String a ""))
  | PStr "" => raise IndexError "string index out of range"
  | PDict _ => raise KeyError "0"
  | _ => raise TypeError "object is not subscriptable"
  end.

(** [v[key]] for a string [key] *)
Definition py_item (v : pyval) (key : string) : result pyval :=
  match v with
  | PDict d =>
      match d !! key with
      | Some x => Ok x
      | None => raise KeyError key
      end
  | _ => raise TypeError "indices must be integers"
  end.

(** The index a slice bound [i] denotes in a sequence of length [len]:
    negative bounds count from the end, and every bound is clamped. *)
Definition clamp (len : nat) (i : Z) : nat :=
  Z.to_nat (if (i <? 0)%Z then Z.max (Z.of_nat len + i) 0
            else Z.min i (Z.of_nat len)).

(** [l[start:]] on a list *)
Definition slice_from {A} (start : Z) (l : list A) : list A :=
  drop (clamp (length l) start) l.

Fixpoint string_drop (n : nat) (s : string) : string :=
  match n, s with
  | O, _ => s
  | S n', String _ s' => string_drop n' s'
  | S _, EmptyString => EmptyString
  end.

(** [v[start:]]: lists and strings are sliced, nothing else is. *)
Definition py_slice_from (start : Z) (v : pyval) : result pyval :=
  match v with
  | PList l => Ok (PList (slice_from start l))
  | PStr s => Ok (PStr (string_drop (clamp (String.length s) start) s))
  | _ => raise TypeError "object is not subscriptable"
  end.

End Py.

Import Py.

(* ===================================================================== *)
(** ** The conversation store: [utils/json_history.py] *)
(* ===================================================================== *)

Module JsonHistory.

(** What [HISTORY_FILE] can hold, told apart by the answers of the
    calls [_load_all] makes: [os.path.exists], [os.path.getsize],
    [f.read().strip()] and [json.loads].  [json.dump] followed by
    [json.loads] gives the dumped value back, so a written file is the
    [Document] of that value.  The file is taken to be readable text: a
    failing [open] or [read] (access rights, bytes that are not UTF-8)
    is no state of this type. *)
Inductive history_file : Type :=
  | Missing                 (* no such file *)
  | ZeroLength              (* the file exists and has size 0 *)
  | Blank                   (* only white space: the stripped text is empty *)
  | Unparsable              (* [json.loads] raises [JSONDecodeError] *)
  | Document (v : pyval).   (* [json.loads] returns [v] *)

Definition _load_all (f : history_file) : pyval :=
  match f with
  | Missing | ZeroLength => PDict ∅
  | Blank => PDict ∅
  | Document v => v
  | Unparsable => PDict ∅
  end.

Definition _save_all (data : pyval) : history_file := Document data.

(** [load(thread_id, last_n)]: a limit of [0] is as false as [None]. *)
Definition load (f : history_file) (thread_id : string)
    (last_n : option Z) : result pyval :=
  let all_data := _load_all f in
  data ← py_get all_data thread_id (PList []);
  match last_n with
  | Some n => if (n =? 0)%Z then Ok data else py_slice_from (- n) data
  | None => Ok data
  end.

(** [append(thread_id, entries)] returns the file as rewritten; when it
    raises, nothing has been written.  On a table that is not a dict the
    membership test or the item assignment raises [TypeError]; a record
    that is not a list has no [extend]. *)
Definition append (f : history_file) (thread_id : string)
    (entries : list pyval) : result history_file :=
  match _load_all f with
  | PDict all_data =>
      let all_data :=
        match all_data !! thread_id with
        | None => <[thread_id := PList []]> all_data
        | Some _ => all_data
        end in
      match all_data !! thread_id with
      | Some (PList record) =>
          Ok (_save_all
                (PDict (<[thread_id := PList (record ++ entries)]> all_data)))
      | _ => raise AttributeError "extend"
      end
  | _ => raise TypeError "not a dict"
  end.

(** [clear(thread_id)] *)
Definition clear (f : history_file) (thread_id : string)
    : result history_file :=
  match _load_all f with
  | PDict all_data =>
      Ok (_save_all (PDict (<[thread_id := PList []]> all_data)))
  | _ => raise TypeError "item assignment"
  end.

(** The record kept for a thread, when the file reads as a dict. *)
Definition stored (f : history_file) (thread_id : string) : option pyval :=
  match _load_all f with
  | PDict d => d !! thread_id
  | _ => None
  end.




(** The reading of the limit that takes every provided [n ≥ 0] as a
    bound: the answer is the last [min n K] turns of the [K] stored. *)
Definition bounded_by_limit (f : history_file) (thread_id : string)
    (n : Z) : Prop :=
  ∀ turns, stored f thread_id = Some (PList turns) →
    ∃ res, load f thread_id (Some n) = Ok (PList res)
           ∧ length res = Nat.min (Z.to_nat n) (length turns)
           ∧ res `suffix_of` turns.

End JsonHistory.

(* ===================================================================== *)
(** ** The agent's response and the extractor:
       [agent/agent_data_extraction.py] *)
(* ===================================================================== *)

Module AgentDataExtraction.

(** A LangChain message object: its class name and the attributes the
    code reads.  [tool_calls] is [None] on the classes that have no such
    attribute ([hasattr] is false there). *)
Record message : Type := Message {
  class_name : string;
  content : pyval;
  tool_calls : option (list pyval);
  response_metadata : gmap string pyval;
  artifact : pyval;
}.

(** An element of the response's message list: a message object or a
    [(role, content)] tuple, as in the state handed to the agent. *)
Inductive entry : Type :=
  | Object (m : message)
  | Tuple (items : list pyval).

(** The state dict the agent returns: the value under ["messages"], if
    the key is there, and what [str] prints for the whole dict. *)
Record AgentResponse : Type := {
  messages : option (list entry);
  as_text : string;
}.

(** The three variables of the loop. *)
Record scan : Type := Scan {
  final_ai : option message;
  tool_call : option pyval;
  tool_result : option message;
}.

Definition scan_start : scan := Scan None None None.

(** One turn of [for msg in messages]. *)
Definition scan_step (s : scan) (e : entry) : scan :=
  match e with
  | Tuple _ => s
  | Object msg =>
      let final_ai :=
        if String.eqb (class_name msg) "AIMessage" && truthy (content msg)
        then Some msg else final_ai s in
      let tool_call :=
        match tool_calls msg with
        | Some (first :: _) => Some first
        | _ => tool_call s
        end in
      let tool_result :=
        if String.eqb (class_name msg) "ToolMessage"
        then Some msg else tool_result s in
      Scan final_ai tool_call tool_result
  end.

Definition scan_messages (ms : list entry) : scan :=
  fold_left scan_step ms scan_start.

(** [final_ai.response_metadata.get("token_usage", {})] under its guard *)
Definition token_usage_of (final_ai : option message) : pyval :=
  match final_ai with
  | Some ai =>
      if truthy (PDict (response_metadata ai))
      then default (PDict ∅) (response_metadata ai !! "token_usage")
      else PDict ∅
  | None => PDict ∅
  end.

(** The [whatsapp_data] dict built from the tool result's artifact. *)
Definition whatsapp_of (tool_result : option message)
  : result (gmap string pyval) :=
  match tool_result with
  | Some tr =>
      if truthy (artifact tr) then
        structured ← py_get (artifact tr) "structured_content" (PDict ∅);
        product ← py_get structured "messaging_product" PNone;
        contacts ← py_get structured "contacts" (PList [PDict ∅]);
        contact ← py_first contacts;
        wa_id ← py_get contact "wa_id" PNone;
        sent ← py_get structured "messages" (PList [PDict ∅]);
        first_sent ← py_first sent;
        message_id ← py_get first_sent "id" PNone;
        Ok (<["messaging_product" := product]>
             (<["wa_id" := wa_id]>
               (<["message_id" := message_id]> ∅)))
      else Ok ∅
  | None => Ok ∅
  end.

(** [tool_call.get(key) if tool_call else None] *)
Definition call_field (tool_call : option pyval) (key : string)
  : result pyval :=
  match tool_call with
  | Some tc => if truthy tc then py_get tc key PNone else Ok PNone
  | None => Ok PNone
  end.

Record token_counts : Type := {
  prompt : pyval;
  completion : pyval;
  total : pyval;
}.

(** The dict [extract_agent_data] returns. *)
Record agent_data : Type := {
  final_message : pyval;
  model : pyval;
  tool_used : pyval;
  tool_arguments : pyval;
  whatsapp : gmap string pyval;
  tokens : token_counts;
  success : bool;
}.

Definition extract_agent_data (response : AgentResponse)
  : result agent_data :=
  let s := scan_messages (default [] (messages response)) in
  let token_usage := token_usage_of (final_ai s) in
  whatsapp_data ← whatsapp_of (tool_result s);
  let final_message :=
    match final_ai s with Some ai => content ai | None => PNone end in
  let model :=
    match final_ai s with
    | Some ai => default PNone (response_metadata ai !! "model_name")
    | None => PNone
    end in
  tool_used ← call_field (tool_call s) "name";
  tool_arguments ← call_field (tool_call s) "args";
  prompt ← py_get token_usage "prompt_tokens" PNone;
  completion ← py_get token_usage "completion_tokens" PNone;
  total ← py_get token_usage "total_tokens" PNone;
  Ok {| final_message := final_message;
        model := model;
        tool_used := tool_used;
        tool_arguments := tool_arguments;
        whatsapp := whatsapp_data;
        tokens := {| prompt := prompt; completion := completion;
                     total := total |};
        success := truthy (default PNone (whatsapp_data !! "message_id")) |}.

(** *** The two readings of "which tool call is tracked" *)

(** The tool call a list element carries: the first of its
    [tool_calls], when it has the attribute and the list is not empty. *)
Definition carried (e : entry) : option pyval :=
  match e with
  | Object m =>
      match tool_calls m with
      | Some (first :: _) => Some first
      | _ => None
      end
  | Tuple _ => None
  end.

(** The element, when it is a tool-result message. *)
Definition as_tool_result (e : entry) : option message :=
  match e with
  | Object m =>
      if String.eqb (class_name m) "ToolMessage" then Some m else None
  | Tuple _ => None
  end.

Definition first_tool_call (ms : list entry) : option pyval :=
  head (omap carried ms).
Definition last_tool_call (ms : list entry) : option pyval :=
  last (omap carried ms).
Definition first_tool_result (ms : list entry) : option message :=
  head (omap as_tool_result ms).
Definition last_tool_result (ms : list entry) : option message :=
  last (omap as_tool_result ms).

(** "First match wins": what is returned comes from the first message
    that carries tool calls and from the first tool-result message. *)
Definition first_match_wins (response : AgentResponse) : Prop :=
  let ms := default [] (messages response) in
  ∀ d, extract_agent_data response = Ok d →
    call_field (first_tool_call ms) "name" = Ok (tool_used d)
    ∧ call_field (first_tool_call ms) "args" = Ok (tool_arguments d)
    ∧ whatsapp_of (first_tool_result ms) = Ok (whatsapp d).

End AgentDataExtraction.

(* ===================================================================== *)
(** ** The summary printer: [agent/agent_logging.py] and
       [utils/cost_calculation.py] *)
(* ===================================================================== *)

Module AgentLogging.
Import AgentDataExtraction.

(** [normalize_model_name]: [startswith] is a method of [str] only. *)
Definition normalize_model_name (model : pyval) : result string :=
  if negb (truthy model) then Ok ""
  else match model with
       | PStr m =>
           if String.prefix "gpt-4o-mini" m then Ok "gpt-4o-mini" else Ok m
       | _ => raise AttributeError "startswith"
       end.

(** Whether [count * price] is defined for a float [price]. *)
Definition times_price (count : pyval) : result unit :=
  match count with
  | PInt _ | PBool _ => Ok ()
  | _ => raise TypeError "unsupported operand for *"
  end.

(** [calculate_llm_cost]: the cost is a float that is only printed; the
    embedding keeps which computations are made and whether they
    raise.  [MODEL_PRICING] has the single key ["gpt-4o-mini"]. *)
Definition calculate_llm_cost (model prompt completion : pyval)
  : result unit :=
  base ← normalize_model_name model;
  if String.eqb base "gpt-4o-mini" then
    _ ← times_price prompt;
    times_price completion
  else Ok ().

(** [x or 0] *)
Definition or_zero (x : pyval) : pyval :=
  if truthy x then x else PInt 0.

(** [print_agent_summary]: after the cost, only printing. *)
Definition print_agent_summary (d : agent_data) : result unit :=
  calculate_llm_cost (model d)
    (or_zero (prompt (tokens d))) (or_zero (completion (tokens d))).

End AgentLogging.

(* ===================================================================== *)
(** ** Server descriptors: [tool_mcp/mcp_servers.py] *)
(* ===================================================================== *)

Module McpServers.

Record MCPServerSpec : Type := {
  name : string;
  transport : string;                      (* "stdio" | "http" *)
  path : option string;                    (* stdio *)
  args : option (list string);
  url : option string;                     (* http *)
  headers : option (gmap string string);
}.

End McpServers.

(* ===================================================================== *)
(** ** The session: class [MCPClient] of [client_v4.py] *)
(* ===================================================================== *)

Module Client.
Import JsonHistory AgentDataExtraction AgentLogging McpServers.

(** A tool handle, known by its name. *)
Definition tool : Type := string.

(** The agent capability: from the prompt state, a list of
    [(role, content)] tuples, to a response or an exception. *)
Definition agent_capability : Type :=
  list (pyval * pyval) → result AgentResponse.

(** What the exit stack owns: for each stdio server the pipe pair of
    [stdio_client] and the [ClientSession] on top of it. *)
Inductive resource : Type :=
  | StdioPipe (server : string)
  | McpSession (server : string).

(** What happens outside the process, in order. *)
Inductive event : Type :=
  | Opened (r : resource)
  | Released (r : resource)
  | HttpSession (server : string).   (* opened and closed by [get_tools] *)

(** How a stdio server answers, step by step. *)
Record stdio_behaviour : Type := {
  spawn : option exn;                       (* entering [stdio_client] *)
  open_session : option exn;                (* entering [ClientSession] *)
  initialize : option exn;                  (* [session.initialize()] *)
  list_tools : result (option (list tool)); (* [load_mcp_tools(session)] *)
}.

(** Everything the session meets and does not own. *)
Record world : Type := {
  stdio_server : string → list string → stdio_behaviour;
  http_server :
    string → option string → gmap string string → result (list tool);
  create_agent : list tool → result agent_capability;
  release : resource → option exn;          (* an exit callback raising *)
  ENABLE_AGENT_DEBUG : bool;
}.

(** The fields of [self].  [exit_stack] has the latest entry first;
    [history] starts as what [load(thread_id, last_n=4)] returned when
    the session was constructed. *)
Record MCPClient : Type := {
  thread_id : string;
  servers : list MCPServerSpec;
  exit_stack : list resource;
  sessions : list resource;
  tools : list tool;
  agent : option agent_capability;
  history : list pyval;
}.

(** The session, the outside events so far, and the history file. *)
Record state : Type := State {
  client : MCPClient;
  trace : list event;
  file : history_file;
}.

(** A method: it returns or raises, and leaves a state either way. *)
Definition act (A : Type) : Type := state → result A * state.

#[export] Instance act_ret : MRet act := λ A a s, (Ok a, s).
#[export] Instance act_bind : MBind act := λ A B k m s,
  match m s with
  | (Ok a, s') => k a s'
  | (Raise e, s') => (Raise e, s')
  end.

Definition throw {A} (e : exn) : act A := λ s, (Raise e, s).
Definition lift {A} (r : result A) : act A := λ s, (r, s).
Definition attempt (failure : option exn) : act unit :=
  match failure with
  | Some e => throw e
  | None => mret ()
  end.
Definition update (g : state → state) : act unit := λ s, (Ok (), g s).

Definition log (ev : event) (s : state) : state :=
  State (client s) (trace s ++ [ev]) (file s).

Definition on_client (g : MCPClient → MCPClient) (s : state) : state :=
  State (g (client s)) (trace s) (file s).

Definition push_resource (r : resource) (c : MCPClient) : MCPClient :=
  {| thread_id := thread_id c; servers := servers c;
     exit_stack := r :: exit_stack c; sessions := sessions c;
     tools := tools c; agent := agent c; history := history c |}.

Definition add_session (r : resource) (c : MCPClient) : MCPClient :=
  {| thread_id := thread_id c; servers := servers c;
     exit_stack := exit_stack c; sessions := sessions c ++ [r];
     tools := tools c; agent := agent c; history := history c |}.

Definition set_tools (ts : list tool) (c : MCPClient) : MCPClient :=
  {| thread_id := thread_id c; servers := servers c;
     exit_stack := exit_stack c; sessions := sessions c;
     tools := ts; agent := agent c; history := history c |}.

Definition set_agent (a : agent_capability) (c : MCPClient) : MCPClient :=
  {| thread_id := thread_id c; servers := servers c;
     exit_stack := exit_stack c; sessions := sessions c;
     tools := tools c; agent := Some a; history := history c |}.

Definition set_history (h : list pyval) (c : MCPClient) : MCPClient :=
  {| thread_id := thread_id c; servers := servers c;
     exit_stack := exit_stack c; sessions := sessions c;
     tools := tools c; agent := agent c; history := h |}.

Definition clear_exit_stack (c : MCPClient) : MCPClient :=
  {| thread_id := thread_id c; servers := servers c;
     exit_stack := []; sessions := sessions c;
     tools := tools c; agent := agent c; history := history c |}.

(** [exit_stack.enter_async_context(cm)]: the resource is tracked once
    entering succeeded. *)
Definition enter_async_context (failure : option exn) (r : resource)
  : act unit :=
  attempt failure;;
  update (λ s, log (Opened r) (on_client (push_resource r) s)).

(** [s.endswith(suffix)] *)
Definition endswith (s suffix : string) : bool :=
  let n := String.length s in
  let k := String.length suffix in
  (k <=? n) && String.eqb (String.substring (n - k) k s) suffix.

Definition newline : string := String (Ascii.ascii_of_nat 10) "".

(** [prompt_library/prompt.py]: the prompt text after [strip()] *)
Definition SYSTEM_PROMPT : string :=
  String.concat newline
    [ "You are an enterprise-grade WhatsApp AI assistant.";
      "";
      "Rules:";
      "1. Always be concise, polite, and professional.";
      "2. Only use tools when necessary.";
      "3. Never hallucinate phone numbers or API responses.";
      "4. Confirm successful message delivery.";
      "5. If an error occurs, explain it clearly.";
      "6. Never expose internal system details.";
      "7. Prefer accuracy over verbosity." ].

Definition SYSTEM_MESSAGE : pyval * pyval :=
  (PStr "system", PStr SYSTEM_PROMPT).

(** The two fixed replies of [invoke]. *)
Definition TIMEOUT_REPLY : string :=
  "⚠️ Request timed out. Please try again.".
Definition FAILURE_REPLY : string :=
  "Sorry, I encountered a technical issue. Please try again shortly.".

(** [(h["role"], h["content"])] *)
Definition role_and_content (h : pyval) : result (pyval * pyval) :=
  role ← py_item h "role";
  content ← py_item h "content";
  Ok (role, content).

(** The ["messages"] of the state handed to the agent. *)
Definition prompt_state (history : list pyval) (user_input : string)
  : result (list (pyval * pyval)) :=
  past ← mapM role_and_content history;
  Ok ([SYSTEM_MESSAGE] ++ past ++ [(PStr "user", PStr user_input)]).

(** A turn as written to the store, and as kept in the in-memory tail. *)
Definition stored_turn (role : string) (content : pyval)
    (timestamp : string) : pyval :=
  PDict (<["role" := PStr role]>
          (<["content" := content]>
            (<["timestamp" := PStr timestamp]> ∅))).

Definition tail_turn (role : string) (content : pyval) : pyval :=
  PDict (<["role" := PStr role]> (<["content" := content]> ∅)).

(** [_extract_text]: the agent's result is its state dict, and the
    message objects are [BaseMessage] instances. *)
Definition _extract_text (result : AgentResponse) : Py.result pyval :=
  match messages result with
  | Some ms =>
      match last ms with
      | None => raise IndexError "list index out of range"
      | Some (Object m) => Ok (content m)
      | Some (Tuple items) =>
          match items !! 1%nat with
          | Some x => Ok x
          | None => raise IndexError "tuple index out of range"
          end
      end
  | None => Ok (PStr (as_text result))
  end.

(** The calls into [json_history]: the file changes when they return. *)
Definition store_append (thread_id : string) (entries : list pyval)
  : act unit :=
  λ s,
    match append (file s) thread_id entries with
    | Ok f' => (Ok (), State (client s) (trace s) f')
    | Raise e => (Raise e, s)
    end.


Section WithWorld.
Context (W : world).

Definition _connect_stdio (spec : MCPServerSpec) : act (list tool) :=
  script ← lift (match path spec with
                 | Some p => Ok p
                 | None => raise AttributeError "endswith"
                 end);
  let command := if endswith script ".py" then "python" else "node" in
  let server :=
    stdio_server W command (script :: default [] (args spec)) in
  enter_async_context (spawn server) (StdioPipe (name spec));;
  enter_async_context (open_session server) (McpSession (name spec));;
  attempt (initialize server);;
  update (on_client (add_session (McpSession (name spec))));;
  found ← lift (list_tools server);
  mret (default [] found).

Definition _connect_http (spec : MCPServerSpec) : act (list tool) :=
  update (log (HttpSession (name spec)));;
  lift (http_server W (name spec) (url spec) (default ∅ (headers spec))).

(** The body of [for spec in self.servers]. *)
Definition connect_one (spec : MCPServerSpec) : act (list tool) :=
  if String.eqb (transport spec) "stdio" then _connect_stdio spec
  else if String.eqb (transport spec) "http" then _connect_http spec
  else throw (Exn ValueError
                ("Unsupported transport: " +:+ transport spec)).

Fixpoint connect_servers (specs : list MCPServerSpec)
    (found : list tool) : act (list tool) :=
  match specs with
  | [] => mret found
  | spec :: rest =>
      more ← connect_one spec;
      connect_servers rest (found ++ more)
  end.

Definition connect_body : act unit :=
  λ s,
    (found ← connect_servers (servers (client s)) [];
     (if bool_decide (found = [])
      then throw (Exn RuntimeError "No MCP tools discovered")
      else mret ());;
     update (on_client (set_tools found));;
     a ← lift (create_agent W found);
     update (on_client (set_agent a))) s.

(** [connect]: the handler prints and raises the exception it caught. *)
Definition connect : act unit :=
  λ s,
    match connect_body s with
    | (Raise e, s') => (Raise e, s')
    | done => done
    end.

(** The [try] block of [invoke]; [now] is the clock's reading. *)
Definition invoke_body (now : string) (user_input : string)
  : act pyval :=
  λ s,
    (messages ← lift (prompt_state (history (client s)) user_input);
     result ← lift (match agent (client s) with
                    | Some a => a messages
                    | None => raise AttributeError "ainvoke"
                    end);
     (if ENABLE_AGENT_DEBUG W
      then lift (agent_data ← extract_agent_data result;
                 print_agent_summary agent_data)
      else mret ());;
     message ← lift (_extract_text result);
     store_append (thread_id (client s))
       [ stored_turn "user" (PStr user_input) now;
         stored_turn "assistant" message now ];;
     update (on_client (λ c,
       set_history (history c ++ [ tail_turn "user" (PStr user_input);
                                   tail_turn "assistant" message ]) c));;
     mret message) s.

(** [invoke]: the two handlers turn a time-out and any other
    [Exception] into a fixed reply. *)
Definition invoke (now : string) (user_input : string) : act pyval :=
  λ s,
    match invoke_body now user_input s with
    | (Raise e, s') =>
        if is_TimeoutError e then (Ok (PStr TIMEOUT_REPLY), s')
        else if is_Exception e then (Ok (PStr FAILURE_REPLY), s')
        else (Raise e, s')
    | done => done
    end.


(** [exit_stack.aclose()]: every callback runs, latest first; when
    some raise, the one raised last comes out at the end. *)
Definition aclose : act unit :=
  λ s,
    let stack := exit_stack (client s) in
    let s' :=
      State (clear_exit_stack (client s))
            (trace s ++ map Released stack) (file s) in
    match last (omap (release W) stack) with
    | Some e => (Raise e, s')
    | None => (Ok (), s')
    end.

Definition close : act unit := aclose.

End WithWorld.

(** The resources the events of [evs] opened, in order. *)
Definition opened_in (evs : list event) : list resource :=
  omap (λ ev, match ev with Opened r => Some r | _ => None end) evs.

(** The session owns what was opened since [s]: the new entries of the
    exit stack are the resources opened by the new events. *)
Definition extends (s s' : state) : Prop :=
  ∃ evs, trace s' = trace s ++ evs
         ∧ exit_stack (client s')
           = reverse (opened_in evs) ++ exit_stack (client s).

(** What [connect] leaves alone when it does not reach the agent. *)
Definition same_session (s s' : state) : Prop :=
  agent (client s') = agent (client s)
  ∧ history (client s') = history (client s)
  ∧ thread_id (client s') = thread_id (client s)
  ∧ servers (client s') = servers (client s)
  ∧ file s' = file s.

(** What the connection steps do to a state: they own what they
    open and touch nothing else of the session. *)
Definition grows (s s' : state) : Prop :=
  extends s s' ∧ same_session s s'
  ∧ tools (client s') = tools (client s).

(** Every run of [m] relates the state it starts in to the one it
    leaves, whether it returns or raises. *)
Definition preserves (R : relation state) {A} (m : act A) : Prop :=
  ∀ s r s', m s = (r, s') → R s s'.

(** How [connect] comes to fail at a server or for want of tools:
    the servers before [spec] connected and the turn for [spec] raised
    [e], or every server connected and no tool was found. *)
Definition connection_fails (W : world) (s : state) (e : exn)
    (s1 : state) : Prop :=
  (∃ before spec after found s0,
     servers (client s) = before ++ spec :: after
     ∧ connect_servers W before [] s = (Ok found, s0)
     ∧ connect_one W spec s0 = (Raise e, s1))
  ∨ (connect_servers W (servers (client s)) [] s = (Ok [], s1)
     ∧ e = Exn RuntimeError "No MCP tools discovered").

Definition supported (spec : MCPServerSpec) : bool :=
  String.eqb (transport spec) "stdio" || String.eqb (transport spec) "http".

(** The reading of "fails fast" that asks for no connection at all:
    [connect] raises the configuration error and no event happened. *)
Definition fails_before_any_connection (W : world) (s : state) : Prop :=
  ∃ msg s', connect W s = (Raise (Exn ValueError msg), s')
            ∧ trace s' = trace s.


End Client.

(* ===================================================================== *)
(** ** Concrete sessions *)
(* ===================================================================== *)

Module Scenarios.
Import JsonHistory AgentDataExtraction AgentLogging McpServers Client.

Definition local_server : MCPServerSpec :=
  {| name := "local"; transport := "stdio"; path := Some "server.py";
     args := None; url := None; headers := None |}.

Definition remote_server : MCPServerSpec :=
  {| name := "whatsapp"; transport := "http"; path := None; args := None;
     url := Some "https://example.invalid/mcp"; headers := None |}.

Definition grpc_server : MCPServerSpec :=
  {| name := "other"; transport := "grpc"; path := None; args := None;
     url := None; headers := None |}.

Definition serving : stdio_behaviour :=
  {| spawn := None; open_session := None; initialize := None;
     list_tools := Ok (Some ["send_message"]) |}.

Definition refused : exn := Exn (OtherError "ConnectionError") "refused".

(** A tool call, a tool result, and the three message kinds. *)
Definition call (tool_name : string) : pyval :=
  PDict (<["name" := PStr tool_name]> (<["args" := PDict ∅]> ∅)).

Definition ai (text : string) (calls : list pyval) : entry :=
  Object {| class_name := "AIMessage"; content := PStr text;
            tool_calls := Some calls; response_metadata := ∅;
            artifact := PNone |}.

Definition tool_message (payload : pyval) : entry :=
  Object {| class_name := "ToolMessage"; content := PStr "ok";
            tool_calls := None; response_metadata := ∅;
            artifact := PDict {[ "structured_content" := payload ]} |}.

Definition delivered (message_id : string) : pyval :=
  PDict (<["messaging_product" := PStr "whatsapp"]>
          (<["contacts" := PList [PDict {[ "wa_id" := PStr "4915" ]}]]>
            (<["messages" := PList [PDict {[ "id" := PStr message_id ]}]]>
              ∅))).

Definition response (ms : list entry) : AgentResponse :=
  {| messages := Some ms; as_text := "" |}.

(** Two tool calls and two tool results in one response. *)
Definition two_calls : AgentResponse :=
  response [ ai "" [call "send_message"];
             tool_message (delivered "wamid.1");
             ai "" [call "send_template"];
             tool_message (delivered "wamid.2");
             ai "Done" [] ].

(** A tool result whose payload has an empty [contacts] list. *)
Definition no_contacts : AgentResponse :=
  response [ ai "" [call "send_message"];
             tool_message (PDict {[ "contacts" := PList [] ]});
             ai "Done" [] ].

(** A tool result whose payload has an empty [messages] list. *)
Definition no_messages : AgentResponse :=
  response [ tool_message (PDict {[ "messages" := PList [] ]}) ].

Definition answering (r : AgentResponse) : agent_capability := λ _, Ok r.
Definition failing (e : exn) : agent_capability := λ _, Raise e.

(** A world where every server answers; [debug] is [AGENT_DEBUG]. *)
Definition calm (debug : bool) : world :=
  {| stdio_server := λ _ _, serving;
     http_server := λ _ _ _, Ok ["send_template"];
     create_agent := λ _, Ok (answering (response [ai "Hello" []]));
     release := λ _, None;
     ENABLE_AGENT_DEBUG := debug |}.

(** The same world with the http server refusing the connection. *)
Definition http_down : world :=
  {| stdio_server := λ _ _, serving;
     http_server := λ _ _ _, Raise refused;
     create_agent := λ _, Ok (answering (response [ai "Hello" []]));
     release := λ _, None;
     ENABLE_AGENT_DEBUG := false |}.

(** A session just constructed on an absent history file. *)
Definition fresh (specs : list MCPServerSpec) : state :=
  {| client := {| thread_id := "thread-1"; servers := specs;
                  exit_stack := []; sessions := []; tools := [];
                  agent := None; history := [] |};
     trace := [];
     file := Missing |}.

(** A connected session with the given agent. *)
Definition connected (a : agent_capability) : state :=
  {| client := {| thread_id := "thread-1"; servers := [remote_server];
                  exit_stack := []; sessions := [];
                  tools := ["send_template"];
                  agent := Some a; history := [] |};
     trace := [HttpSession "whatsapp"];
     file := Missing |}.

(** A reading of the clock, as [isoformat()] prints it. *)
Definition noon : string := "2026-01-01T12:00:00+00:00".

End Scenarios.

(* ===================================================================== *)
(** ** Further readings of the extractor's loop *)
(* ===================================================================== *)

Module ExtractionReadings.
Import AgentDataExtraction.

(** The element, when it is an assistant message with content. *)
Definition as_answer (e : entry) : option message :=
  match e with
  | Object m =>
      if String.eqb (class_name m) "AIMessage" && truthy (content m)
      then Some m else None
  | Tuple _ => None
  end.

Definition last_answer (ms : list entry) : option message :=
  last (omap as_answer ms).

(** The elements that set one of the loop's variables. *)
Definition relevant (e : entry) : bool :=
  match as_answer e, carried e, as_tool_result e with
  | None, None, None => false
  | _, _, _ => true
  end.

(** What the extractor returns when nothing was found. *)
Definition nothing_found : agent_data :=
  {| final_message := PNone; model := PNone; tool_used := PNone;
     tool_arguments := PNone; whatsapp := ∅;
     tokens := {| prompt := PNone; completion := PNone; total := PNone |};
     success := false |}.



End ExtractionReadings.

(* ===================================================================== *)
(** ** Start-up configuration: [load_and_validate_env] of
       [client_simple.py] and [Client.py] *)
(* ===================================================================== *)

Module EnvConfig.

Definition REQUIRED_ENV_VARS : list string :=
  ["MCP_API_TOKEN"; "PHONE_NUMBER_ID"; "WABATOKEN"].

Definition DEFAULT_WHATSAPP_API_VERSION : string := "v18.0".

(** [not os.getenv(var)]: unset, or set to the empty string. *)
Definition unset (environ : gmap string string) (var : string) : bool :=
  match environ !! var with
  | Some v => String.eqb v ""
  | None => true
  end.

(** [load_and_validate_env], on the process environment as
    [load_dotenv()] leaves it.  [EnvironmentError] is [OSError]. *)
Definition load_and_validate_env (environ : gmap string string)
  : result (gmap string (option string)) :=
  let missing := filter (λ var, unset environ var = true) REQUIRED_ENV_VARS in
  if bool_decide (missing = []) then
    Ok (<["api_token" := environ !! "MCP_API_TOKEN"]>
         (<["phone_number_id" := environ !! "PHONE_NUMBER_ID"]>
           (<["access_token" := environ !! "WABATOKEN"]>
             (<["api_version" :=
                  Some (default DEFAULT_WHATSAPP_API_VERSION
                          (environ !! "WHATSAPP_API_VERSION"))]> ∅))))
  else
    raise (OtherError "OSError")
      ("Missing required environment variables: "
       +:+ String.concat ", " missing).

End EnvConfig.

(* ===================================================================== *)
(** ** The entry point: [main] of [client_v4.py] *)
(* ===================================================================== *)

Module Entrypoint.
Import JsonHistory AgentDataExtraction McpServers Client.

(** A line read by [input("You: ")], told apart by the tests the loop
    makes on its stripped text: empty, [exit] or [quit] in any case, or
    text for the agent.  [now] is the clock's reading during that
    turn. *)
Inductive typed : Type :=
  | Nothing
  | Leave
  | Say (user_input : string) (now : string).

(** [try: body finally: handler]: the handler runs either way, and what
    it raises replaces the outcome of the body. *)
Definition finally {A} (body : act A) (handler : act unit) : act A :=
  λ s,
    match body s with
    | (r, s1) =>
        match handler s1 with
        | (Ok _, s2) => (r, s2)
        | (Raise e, s2) => (Raise e, s2)
        end
    end.

Section WithWorld.
Context (W : world).

(** The [while True] loop over the lines typed; when they run out,
    [input] raises [EOFError]. *)
Fixpoint main_loop (lines : list typed) : act unit :=
  match lines with
  | [] => throw (Exn (OtherError "EOFError") "EOF when reading a line")
  | Nothing :: rest => main_loop rest
  | Leave :: _ => mret ()
  | Say user_input now :: rest =>
      invoke W now user_input;;
      main_loop rest
  end.

(** [main], from [await client.connect()] on: the session has been
    constructed. *)
Definition main (lines : list typed) : act unit :=
  connect W;;
  finally (main_loop lines) (close W).

End WithWorld.

(** The turns of the lines typed up to the first [exit]. *)
Fixpoint said (lines : list typed) : list (string * string) :=
  match lines with
  | [] => []
  | Nothing :: rest => said rest
  | Leave :: _ => []
  | Say user_input now :: rest => (user_input, now) :: said rest
  end.

(** Whether the lines reach an [exit] before they run out. *)
Fixpoint leaves (lines : list typed) : bool :=
  match lines with
  | [] => false
  | Leave :: _ => true
  | _ :: rest => leaves rest
  end.

End Entrypoint.

(* ===================================================================== *)
(** ** Further readings of the session *)
(* ===================================================================== *)

Module ClientReadings.
Import JsonHistory AgentDataExtraction McpServers Client Entrypoint.

(** An exception the handlers of [invoke] turn into the technical-issue
    reply: an [Exception] that is no time-out. *)
Definition ordinary (e : exn) : Prop :=
  is_Exception e = true ∧ is_TimeoutError e = false.

(** Every exception [m] can raise satisfies [P]. *)
Definition raises_only (P : exn → Prop) {A} (m : result A) : Prop :=
  ∀ e, m = Raise e → P e.

(** A history entry is a dict with the given role and content, whatever
    else it holds. *)
Definition has_role_and_content (h : pyval) (turn : pyval * pyval) : Prop :=
  ∃ d, h = PDict d ∧ d !! "role" = Some turn.1 ∧ d !! "content" = Some turn.2.

(** An event that is no release. *)
Definition not_a_release (ev : event) : Prop :=
  match ev with
  | Released _ => False
  | _ => True
  end.

(** What happened since [s] released nothing. *)
Definition releases_nothing (s s' : state) : Prop :=
  ∃ evs, trace s' = trace s ++ evs ∧ Forall not_a_release evs.

(** What [invoke], [reset] and the input loop leave alone: the
    connections, the tools and the agent. *)
Definition same_connections (s s' : state) : Prop :=
  trace s' = trace s
  ∧ exit_stack (client s') = exit_stack (client s)
  ∧ sessions (client s') = sessions (client s)
  ∧ tools (client s') = tools (client s)
  ∧ agent (client s') = agent (client s)
  ∧ thread_id (client s') = thread_id (client s)
  ∧ servers (client s') = servers (client s).

(** The lines that matter: the texts typed before the first [exit],
    then the [exit] if there is one. *)
Definition essential (lines : list typed) : list typed :=
  map (λ turn, Say turn.1 turn.2) (said lines)
  ++ (if leaves lines then [Leave] else []).

End ClientReadings.

(* ===================================================================== *)
(** ** More concrete sessions *)
(* ===================================================================== *)

Module MoreScenarios.
Import JsonHistory AgentDataExtraction McpServers Client Scenarios.



(** A stdio descriptor without its path. *)
Definition pathless : MCPServerSpec :=
  {| name := "local"; transport := "stdio"; path := None;
     args := None; url := None; headers := None |}.

(** A table with two threads. *)
Definition two_threads : history_file :=
  Document (PDict (<["t" := PList [PInt 1; PInt 2; PInt 3]]>
                    (<["u" := PList [PInt 7]]> ∅))).

(** An environment with the three required variables. *)
Definition full_environ : gmap string string :=
  <["MCP_API_TOKEN" := "token"]>
    (<["PHONE_NUMBER_ID" := "1234"]>
      (<["WABATOKEN" := "secret"]> ∅)).

End MoreScenarios.

(* ===================================================================== *)
(** * Properties *)
(* ===================================================================== *)

(** ** Slices *)

Section Slices.
Context {A : Type}.
Implicit Types (l : list A) (n : Z).

Lemma clamp_tail (len : nat) n :
  (1 ≤ n)%Z → clamp len (- n) = len - Z.to_nat n.
Proof.
  intros Hn. unfold clamp.
  destruct (Z.ltb_spec (- n) 0); lia.
Qed.

Lemma slice_from_suffix n l : slice_from n l `suffix_of` l.
Proof. apply suffix_drop. Qed.

Lemma slice_from_tail_length n l :
  (1 ≤ n)%Z →
  length (slice_from (- n) l) = Nat.min (Z.to_nat n) (length l).
Proof.
  intros Hn. unfold slice_from.
  rewrite length_drop, clamp_tail by done. lia.
Qed.

End Slices.

(** ** The conversation store *)

Module JsonHistoryFacts.
Import JsonHistory.

Implicit Types (f : history_file) (t u : string) (d : gmap string pyval).



(** What [load] returns without a limit is the stored value or [[]]. *)
Lemma load_dict f d t :
  _load_all f = PDict d →
  load f t None = Ok (default (PList []) (d !! t)).
Proof. unfold load. by intros ->. Qed.






(** A parsable document that is not a dict is outside [well_formed]:
    there [load] raises. *)
Example load_of_json_array :
  load (Document (PList [])) "t" None = raise AttributeError "get".
Proof. reflexivity. Qed.



(** C8, as stated, fails at the limit 0: [load(t, 0)] returns every
    stored turn, not the last [min 0 K = 0] of them. *)
Lemma load_limit_zero_returns_all :
  ¬ bounded_by_limit
      (Document (PDict {[ "t" := PList [PStr "hello"; PStr "world"] ]}))
      "t" 0.
Proof.
  intros H. destruct (H [PStr "hello"; PStr "world"]) as (res & Hl & Hlen & _).
  { reflexivity. }
  vm_compute in Hl. injection Hl as <-. discriminate Hlen.
Qed.

(** C8, amended.  For a thread whose stored record has K turns and a
    limit n ≥ 1, [load] returns the last [min n K] turns in order; with
    no limit, or with the limit 0, it returns all K turns. *)
Theorem load_limit f t (turns : list pyval) :
  stored f t = Some (PList turns) →
  (∀ n, (1 ≤ n)%Z →
     ∃ res, load f t (Some n) = Ok (PList res)
            ∧ length res = Nat.min (Z.to_nat n) (length turns)
            ∧ res `suffix_of` turns)
  ∧ load f t None = Ok (PList turns)
  ∧ load f t (Some 0%Z) = Ok (PList turns).
Proof.
  unfold stored, load. destruct (_load_all f) as [| | | | |d]; try done.
  intros Ht. simpl. rewrite Ht. simpl. split; [|done].
  intros n Hn. destruct (Z.eqb_spec n 0) as [->|_]; [lia|]. simpl.
  eexists; split; [done|].
  split; [by apply slice_from_tail_length | apply slice_from_suffix].
Qed.

Lemma load_limit_witness :
  ∃ res,
    load (Document (PDict {[ "t" := PList [PInt 1; PInt 2; PInt 3] ]}))
         "t" (Some 2%Z) = Ok (PList res)
    ∧ length res = 2
    ∧ res `suffix_of` [PInt 1; PInt 2; PInt 3].
Proof.
  destruct (load_limit
              (Document (PDict {[ "t" := PList [PInt 1; PInt 2; PInt 3] ]}))
              "t" [PInt 1; PInt 2; PInt 3]) as (Hlimit & _ & _).
  - reflexivity.
  - apply (Hlimit 2%Z). lia.
Defined.





End JsonHistoryFacts.

(** ** The extractor *)

Module ExtractionFacts.
Import AgentDataExtraction Scenarios.

Implicit Types (ms : list entry) (s : scan).

(** The loop keeps, for each variable, the last element that sets it. *)
Lemma scan_tool_call ms s :
  tool_call (fold_left scan_step ms s)
  = from_option Some (tool_call s) (last (omap carried ms)).
Proof.
  revert s. induction ms as [|e ms IH]; intros s; [reflexivity|].
  cbn [fold_left]. rewrite IH.
  change (omap carried (e :: ms))
    with (match carried e with
          | Some y => y :: omap carried ms
          | None => omap carried ms
          end).
  destruct e as [m|items]; cbn [carried scan_step tool_call]; [|done].
  destruct (tool_calls m) as [[|first rest]|]; try done.
  rewrite last_cons. by destruct (last (omap carried ms)).
Qed.

Lemma scan_tool_result ms s :
  tool_result (fold_left scan_step ms s)
  = from_option Some (tool_result s) (last (omap as_tool_result ms)).
Proof.
  revert s. induction ms as [|e ms IH]; intros s; [reflexivity|].
  cbn [fold_left]. rewrite IH.
  change (omap as_tool_result (e :: ms))
    with (match as_tool_result e with
          | Some y => y :: omap as_tool_result ms
          | None => omap as_tool_result ms
          end).
  destruct e as [m|items];
    cbn [as_tool_result scan_step tool_result]; [|done].
  destruct (String.eqb (class_name m) "ToolMessage"); [|done].
  rewrite last_cons. by destruct (last (omap as_tool_result ms)).
Qed.

Lemma scan_messages_tool_call ms :
  tool_call (scan_messages ms) = last_tool_call ms.
Proof.
  unfold scan_messages, last_tool_call. rewrite scan_tool_call.
  by destruct (last (omap carried ms)).
Qed.

Lemma scan_messages_tool_result ms :
  tool_result (scan_messages ms) = last_tool_result ms.
Proof.
  unfold scan_messages, last_tool_result. rewrite scan_tool_result.
  by destruct (last (omap as_tool_result ms)).
Qed.

(** C6, as stated, fails on a response with two tool calls and two
    tool results: what is returned is not taken from the first ones. *)
Lemma later_tool_call_overrides : ¬ first_match_wins two_calls.
Proof.
  intros H. destruct (extract_agent_data two_calls) as [d|e] eqn:Hd.
  - destruct (H d Hd) as (Hname & _).
    vm_compute in Hd. injection Hd as <-.
    vm_compute in Hname. discriminate Hname.
  - vm_compute in Hd. discriminate Hd.
Qed.

(** C6, amended.  What the extractor returns as tool name and
    arguments is read from the first tool call of the last message, in
    arrival order, that carries tool calls, and the structured payload
    it returns is read from the last tool-result message. *)
Theorem last_match_wins (response : AgentResponse) (d : agent_data) :
  extract_agent_data response = Ok d →
  let ms := default [] (messages response) in
  call_field (last_tool_call ms) "name" = Ok (tool_used d)
  ∧ call_field (last_tool_call ms) "args" = Ok (tool_arguments d)
  ∧ whatsapp_of (last_tool_result ms) = Ok (whatsapp d).
Proof.
  intros H ms. unfold extract_agent_data in H. fold ms in H.
  rewrite scan_messages_tool_call, scan_messages_tool_result in H.
  destruct (whatsapp_of (last_tool_result ms)) as [w|]; [|done].
  destruct (call_field (last_tool_call ms) "name") as [n|]; [|done].
  destruct (call_field (last_tool_call ms) "args") as [a|]; [|done].
  simpl in H.
  destruct (py_get _ "prompt_tokens" _); [|done].
  destruct (py_get _ "completion_tokens" _); [|done].
  destruct (py_get _ "total_tokens" _); [|done].
  simpl in H. by injection H as <-.
Qed.

Lemma last_match_wins_witness :
  ∃ d, extract_agent_data two_calls = Ok d
       ∧ tool_used d = PStr "send_template"
       ∧ whatsapp d !! "message_id" = Some (PStr "wamid.2").
Proof.
  destruct (extract_agent_data two_calls) as [d|e] eqn:Hd.
  - exists d. split; [done|].
    destruct (last_match_wins two_calls d Hd) as (Hname & _ & Hw).
    assert (Hlast : call_field
                      (last_tool_call (default [] (messages two_calls)))
                      "name" = Ok (PStr "send_template"))
      by (vm_compute; reflexivity).
    assert (Hres : whatsapp_of
                     (last_tool_result (default [] (messages two_calls)))
                   = Ok (<["messaging_product" := PStr "whatsapp"]>
                          (<["wa_id" := PStr "4915"]>
                            (<["message_id" := PStr "wamid.2"]> ∅))))
      by (vm_compute; reflexivity).
    rewrite Hlast in Hname. rewrite Hres in Hw.
    injection Hname as <-. injection Hw as <-.
    split; reflexivity.
  - vm_compute in Hd. discriminate Hd.
Defined.

(** C7.  The extractor raises [IndexError] on a tool result whose
    structured payload has an empty [contacts] list, and on one whose
    payload has an empty [messages] list. *)
Theorem extract_raises_on_empty_list :
  extract_agent_data no_contacts
  = raise IndexError "list index out of range"
  ∧ extract_agent_data no_messages
    = raise IndexError "list index out of range".
Proof. split; vm_compute; reflexivity. Qed.

(** A payload without the two keys falls back on [[{}]] and goes
    through. *)
Example extract_defaults_on_missing_keys :
  ∃ d, extract_agent_data (response [tool_message (PDict ∅)]) = Ok d
       ∧ whatsapp d !! "wa_id" = Some PNone
       ∧ success d = false.
Proof. eexists. split; [vm_compute; reflexivity|]. split; reflexivity. Qed.

End ExtractionFacts.

(** ** The session *)

Module ClientFacts.
Import JsonHistory AgentDataExtraction AgentLogging McpServers Client.

(** *** Methods as state transformers *)

Section Preservation.
Context (R : relation state) `{!PreOrder R}.

Lemma preserves_ret {A} (a : A) : preserves R (mret a).
Proof. intros s r s' [= <- <-]. reflexivity. Qed.

Lemma preserves_throw {A} (e : exn) : preserves R (throw (A:=A) e).
Proof. intros s r s' [= <- <-]. reflexivity. Qed.

Lemma preserves_lift {A} (x : result A) : preserves R (lift x).
Proof. intros s r s' [= <- <-]. reflexivity. Qed.

Lemma preserves_attempt (failure : option exn) :
  preserves R (attempt failure).
Proof.
  destruct failure; [apply preserves_throw | apply preserves_ret].
Qed.

Lemma preserves_update (g : state → state) :
  (∀ s, R s (g s)) → preserves R (update g).
Proof. intros Hg s r s' [= <- <-]. apply Hg. Qed.

Lemma preserves_bind {A B} (m : act A) (k : A → act B) :
  preserves R m → (∀ a, preserves R (k a)) → preserves R (m ≫= k).
Proof.
  intros Hm Hk s r s'. unfold mbind, act_bind.
  destruct (m s) as [[a|e] s1] eqn:Hs.
  - intros Hr. transitivity s1; [by eapply Hm | by eapply Hk].
  - intros [= <- <-]. by eapply Hm.
Qed.

End Preservation.

Lemma opened_in_app (evs evs' : list event) :
  opened_in (evs ++ evs') = opened_in evs ++ opened_in evs'.
Proof. apply omap_app. Qed.

#[local] Instance extends_preorder : PreOrder extends.
Proof.
  split.
  - intros s. exists []. by rewrite app_nil_r.
  - intros s1 s2 s3 (evs & Ht & Hs) (evs' & Ht' & Hs').
    exists (evs ++ evs'). rewrite Ht', Ht, Hs', Hs, opened_in_app.
    by rewrite reverse_app, !app_assoc.
Qed.

#[local] Instance same_session_preorder : PreOrder same_session.
Proof.
  split.
  - by intros s.
  - intros s1 s2 s3 (?&?&?&?&?) (?&?&?&?&?).
    repeat split; etrans; eauto.
Qed.

#[local] Instance grows_preorder : PreOrder grows.
Proof.
  split.
  - intros s. by repeat split.
  - intros s1 s2 s3 (?&?&?) (?&?&?).
    split; [|split]; etrans; eauto.
Qed.

Lemma grows_open (r : resource) (s : state) :
  grows s (log (Opened r) (on_client (push_resource r) s)).
Proof. split; [|done]. by exists [Opened r]. Qed.

Lemma grows_add_session (r : resource) (s : state) :
  grows s (on_client (add_session r) s).
Proof. split; [|done]. exists []. by rewrite app_nil_r. Qed.

Lemma grows_http (server : string) (s : state) :
  grows s (log (HttpSession server) s).
Proof. split; [|done]. by exists [HttpSession server]. Qed.

Lemma bind_run {A B} (m : act A) (k : A → act B) (s : state) :
  (m ≫= k) s
  = match m s with
    | (Ok a, s') => k a s'
    | (Raise e, s') => (Raise e, s')
    end.
Proof. reflexivity. Qed.

(** The first step of a sequence is closed by [tac]; the rest stays. *)
Ltac then_ tac :=
  apply preserves_bind; [apply _ | tac | intros ?].

Section WithWorld.
Context (W : world).

Lemma enter_async_context_grows failure r :
  preserves grows (enter_async_context failure r).
Proof.
  apply preserves_bind; [apply _ | apply preserves_attempt, _ |].
  intros _. apply preserves_update, grows_open.
Qed.

Lemma connect_one_grows spec : preserves grows (connect_one W spec).
Proof.
  unfold connect_one.
  destruct (String.eqb (transport spec) "stdio").
  { unfold _connect_stdio.
    then_ ltac:(apply preserves_lift, _).
    then_ ltac:(apply enter_async_context_grows).
    then_ ltac:(apply enter_async_context_grows).
    then_ ltac:(apply preserves_attempt, _).
    then_ ltac:(apply preserves_update, grows_add_session).
    then_ ltac:(apply preserves_lift, _).
    apply preserves_ret, _. }
  destruct (String.eqb (transport spec) "http").
  { unfold _connect_http.
    then_ ltac:(apply preserves_update, grows_http).
    apply preserves_lift, _. }
  apply preserves_throw, _.
Qed.

Lemma connect_servers_grows specs found :
  preserves grows (connect_servers W specs found).
Proof.
  revert found. induction specs as [|spec rest IH]; intros found.
  - apply preserves_ret, _.
  - cbn [connect_servers].
    apply preserves_bind; [apply _ | apply connect_one_grows |].
    intros more. apply IH.
Qed.

(** The loop over [before ++ spec :: rest] is the loop over
    [before], then the turn for [spec], then the loop over [rest]. *)
Lemma connect_servers_app before spec rest found0 found s s0 :
  connect_servers W before found0 s = (Ok found, s0) →
  connect_servers W (before ++ spec :: rest) found0 s
  = (more ← connect_one W spec;
     connect_servers W rest (found ++ more)) s0.
Proof.
  revert found0 s. induction before as [|b before IH]; intros found0 s.
  - intros [= <- <-]. reflexivity.
  - cbn [connect_servers app]. rewrite !(bind_run (connect_one W b)).
    destruct (connect_one W b s) as [[more|e] s1]; [|done].
    apply IH.
Qed.

(** *** [connect] and [close] *)

Lemma connect_loop_raises s e s1 :
  connect_servers W (servers (client s)) [] s = (Raise e, s1) →
  connect W s = (Raise e, s1).
Proof.
  intros H. unfold connect, connect_body. by rewrite bind_run, H.
Qed.

Lemma connect_no_tools s s1 :
  connect_servers W (servers (client s)) [] s = (Ok [], s1) →
  connect W s = (Raise (Exn RuntimeError "No MCP tools discovered"), s1).
Proof.
  intros H. unfold connect, connect_body. by rewrite bind_run, H.
Qed.

(** Whatever [connect] does, the exit stack tracks what it opened;
    when it raises, the agent is as before. *)
Lemma connect_run s r s1 :
  connect W s = (r, s1) →
  extends s s1 ∧ (∀ e, r = Raise e → agent (client s1) = agent (client s)).
Proof.
  unfold connect, connect_body. rewrite bind_run.
  destruct (connect_servers W (servers (client s)) [] s)
    as [[found|e0] s0] eqn:Hloop;
    apply connect_servers_grows in Hloop as (Hext & (Hagent & _) & _).
  2: { intros [= <- <-]. by split. }
  rewrite bind_run. destruct (bool_decide (found = [])).
  { cbn. intros [= <- <-]. by split. }
  cbn. destruct (create_agent W found) as [a|e0]; cbn.
  - intros [= <- <-]. split; [|done].
    destruct Hext as (evs & Ht & Hs). by exists evs.
  - intros [= <- <-]. split; [|done].
    destruct Hext as (evs & Ht & Hs). by exists evs.
Qed.

(** [close] empties the exit stack, running every callback, latest
    entry first. *)
Lemma close_run s :
  ∃ r, close W s
       = (r, State (clear_exit_stack (client s))
                   (trace s ++ map Released (exit_stack (client s)))
                   (file s)).
Proof.
  unfold close, aclose.
  destruct (last (omap (release W) (exit_stack (client s)))); eauto.
Qed.

(** On an empty exit stack [close] does nothing and returns. *)
Lemma close_nothing s :
  exit_stack (client s) = [] → close W s = (Ok (), s).
Proof.
  intros H. unfold close, aclose. rewrite H. cbn.
  rewrite app_nil_r. destruct s as [c tr f]. cbn in *.
  f_equal. f_equal. destruct c. cbn in *. by subst.
Qed.

(** C3, amended.  When the loop of [connect] reaches a spec whose
    transport is neither stdio nor http, the specs before it having
    connected, [connect] raises the configuration error in the state
    those connections left: nothing is opened for that spec or for a
    later one, and nothing at all when it is the first spec. *)
Theorem unknown_transport_stops_connect s before spec after found s0 :
  servers (client s) = before ++ spec :: after →
  supported spec = false →
  connect_servers W before [] s = (Ok found, s0) →
  connect W s
  = (Raise (Exn ValueError ("Unsupported transport: " +:+ transport spec)),
     s0)
  ∧ (before = [] → s0 = s).
Proof.
  intros Hspecs Hbad Hbefore. split.
  - apply connect_loop_raises. rewrite Hspecs.
    erewrite connect_servers_app by done. rewrite bind_run.
    unfold connect_one. unfold supported in Hbad.
    apply orb_false_iff in Hbad as [-> ->]. reflexivity.
  - intros ->. by injection Hbefore as _ <-.
Qed.

(** Once [connect] has raised, [close] runs the exit callback of
    every resource it opened, latest first, and a second [close]
    finds nothing to do. *)
Lemma close_after_connect s r s1 :
  connect W s = (r, s1) →
  ∃ evs r' s2,
    trace s1 = trace s ++ evs
    ∧ close W s1 = (r', s2)
    ∧ exit_stack (client s2) = []
    ∧ trace s2
      = trace s1
        ++ map Released (reverse (opened_in evs) ++ exit_stack (client s))
    ∧ close W s2 = (Ok (), s2).
Proof.
  intros Hc. apply connect_run in Hc as [(evs & Ht & Hs) _].
  destruct (close_run s1) as [r' Hr].
  exists evs, r'. eexists. split; [done|]. split; [done|].
  split; [done|]. split; [by rewrite Hs|].
  by apply close_nothing.
Qed.

(** C4.  When connecting to a server fails, the servers before it
    having connected, or when no tool was found, [connect] raises that
    very error; the agent and the tools of the session are as before
    (an unconnected session stays unconnected); and [close] then runs
    the exit callback of every resource [connect] opened, latest
    first, leaves the exit stack empty, and can be called again to no
    effect. *)
Theorem failed_connect_is_released s e s1 :
  connection_fails W s e s1 →
  connect W s = (Raise e, s1)
  ∧ agent (client s1) = agent (client s)
  ∧ tools (client s1) = tools (client s)
  ∧ ∃ evs r s2,
      trace s1 = trace s ++ evs
      ∧ close W s1 = (r, s2)
      ∧ exit_stack (client s2) = []
      ∧ trace s2
        = trace s1
          ++ map Released (reverse (opened_in evs)
                           ++ exit_stack (client s))
      ∧ close W s2 = (Ok (), s2).
Proof.
  intros Hfail.
  assert (connect W s = (Raise e, s1)
          ∧ tools (client s1) = tools (client s)) as [Hc Htools].
  { destruct Hfail
      as [(before & spec & after & found & s0 & Hspecs & Hbefore & Hone)
         |[Hloop ->]].
    - split.
      + apply connect_loop_raises. rewrite Hspecs.
        erewrite connect_servers_app by done.
        by rewrite bind_run, Hone.
      + apply connect_servers_grows in Hbefore as (_ & _ & Ht0).
        apply connect_one_grows in Hone as (_ & _ & Ht1).
        congruence.
    - split; [by apply connect_no_tools|].
      by apply connect_servers_grows in Hloop as (_ & _ & Ht0). }
  split; [done|]. split; [by eapply connect_run|]. split; [done|].
  by eapply close_after_connect.
Qed.

(** *** [invoke] *)

(** C1.  When the agent call raises an [Exception], [invoke] returns
    the time-out reply for a [TimeoutError] and the technical-issue
    reply for any other one, and the state it leaves (the store file,
    the in-memory history, the connections) is the state it
    started in. *)
Theorem invoke_contains_agent_failure (now user_input : string)
    s a messages e :
  agent (client s) = Some a →
  prompt_state (history (client s)) user_input = Ok messages →
  a messages = Raise e →
  is_Exception e = true →
  invoke W now user_input s
  = (Ok (PStr (if is_TimeoutError e
               then TIMEOUT_REPLY else FAILURE_REPLY)), s).
Proof.
  intros Hagent Hstate Hcall Hexc.
  unfold invoke, invoke_body.
  rewrite bind_run. unfold lift at 1. rewrite Hstate.
  rewrite bind_run. unfold lift at 1. rewrite Hagent, Hcall.
  destruct (is_TimeoutError e); [done|]. by rewrite Hexc.
Qed.


End WithWorld.

(** *** The theorems on concrete sessions *)

Import Scenarios.

Lemma invoke_contains_agent_failure_witness :
  invoke (calm false) noon "hi" (connected (failing (Exn TimeoutError "")))
  = (Ok (PStr TIMEOUT_REPLY), connected (failing (Exn TimeoutError "")))
  ∧ invoke (calm false) noon "hi" (connected (failing refused))
    = (Ok (PStr FAILURE_REPLY), connected (failing refused)).
Proof.
  split.
  - apply (invoke_contains_agent_failure (calm false) noon "hi"
             (connected (failing (Exn TimeoutError "")))
             (failing (Exn TimeoutError ""))
             ([SYSTEM_MESSAGE] ++ [(PStr "user", PStr "hi")])
             (Exn TimeoutError "")); reflexivity.
  - apply (invoke_contains_agent_failure (calm false) noon "hi"
             (connected (failing refused)) (failing refused)
             ([SYSTEM_MESSAGE] ++ [(PStr "user", PStr "hi")])
             refused); reflexivity.
Defined.

(** An exception that is no [Exception] passes both handlers. *)
Example invoke_lets_cancellation_through :
  invoke (calm false) noon "hi" (connected (failing (Exn CancelledError "")))
  = (Raise (Exn CancelledError ""),
     connected (failing (Exn CancelledError ""))).
Proof. reflexivity. Qed.



(** C3, as stated, fails when a stdio server comes before the spec
    with the unknown transport: its pipe and its session have been
    opened by the time the configuration error is raised. *)
Lemma connection_opened_before_unknown_transport :
  (∃ spec, spec ∈ servers (client (fresh [local_server; grpc_server]))
           ∧ supported spec = false)
  ∧ ¬ fails_before_any_connection (calm false)
        (fresh [local_server; grpc_server]).
Proof.
  split.
  - exists grpc_server. split; [|reflexivity].
    apply list_elem_of_In. right. by left.
  - intros (msg & s' & Hc & Ht).
    assert (trace (snd (connect (calm false)
                          (fresh [local_server; grpc_server])))
            = [Opened (StdioPipe "local"); Opened (McpSession "local")])
      as Hrun by (vm_compute; reflexivity).
    rewrite Hc in Hrun. cbn in Hrun. rewrite Ht in Hrun.
    discriminate Hrun.
Qed.

Lemma unknown_transport_stops_connect_witness :
  connect (calm false) (fresh [grpc_server; local_server])
  = (Raise (Exn ValueError "Unsupported transport: grpc"),
     fresh [grpc_server; local_server])
  ∧ ∃ s0,
      connect (calm false) (fresh [local_server; grpc_server])
      = (Raise (Exn ValueError "Unsupported transport: grpc"), s0)
      ∧ trace s0
        = [Opened (StdioPipe "local"); Opened (McpSession "local")].
Proof.
  split.
  - apply (unknown_transport_stops_connect (calm false)
             (fresh [grpc_server; local_server])
             [] grpc_server [local_server] []
             (fresh [grpc_server; local_server]));
      reflexivity.
  - exists (snd (connect_servers (calm false) [local_server] []
                   (fresh [local_server; grpc_server]))).
    split; [|vm_compute; reflexivity].
    apply (unknown_transport_stops_connect (calm false)
             (fresh [local_server; grpc_server])
             [local_server] grpc_server [] ["send_message"]).
    + reflexivity.
    + reflexivity.
    + vm_compute. reflexivity.
Defined.

Lemma failed_connect_is_released_witness :
  ∃ s1 r s2,
    connect http_down (fresh [local_server; remote_server])
    = (Raise refused, s1)
    ∧ agent (client s1) = None
    ∧ close http_down s1 = (r, s2)
    ∧ exit_stack (client s2) = []
    ∧ trace s2
      = [ Opened (StdioPipe "local"); Opened (McpSession "local");
          HttpSession "whatsapp";
          Released (McpSession "local"); Released (StdioPipe "local") ].
Proof.
  pose (s0 := snd (connect_servers http_down [local_server] []
                     (fresh [local_server; remote_server]))).
  pose (s1 := snd (connect_one http_down remote_server s0)).
  destruct (failed_connect_is_released http_down
              (fresh [local_server; remote_server]) refused s1)
    as (Hc & Hagent & _ & evs & r & s2 & Hevs & Hclose & Hstack & Htr & _).
  - left. exists [local_server], remote_server, [], ["send_message"], s0.
    split; [reflexivity|]. split; vm_compute; reflexivity.
  - exists s1, r, s2. split; [exact Hc|]. split; [exact Hagent|].
    split; [exact Hclose|]. split; [exact Hstack|].
    rewrite Htr. cbn in Hevs. rewrite <- Hevs. vm_compute. reflexivity.
Defined.

End ClientFacts.

(** ** More on the conversation store *)

Module JsonHistoryMore.
Import JsonHistory MoreScenarios.

Implicit Types (f : history_file) (t u : string) (d : gmap string pyval).


Lemma clamp_head (len : nat) (n : Z) :
  (0 ≤ n)%Z → clamp len n = Nat.min (Z.to_nat n) len.
Proof. intros Hn. unfold clamp. destruct (Z.ltb_spec n 0); lia. Qed.












(** X6.  A negative limit counts from the front: [load(t, n)] with
    [n < 0] returns the stored turns without the first [-n] of them. *)
Theorem load_negative_limit f t (turns : list pyval) (n : Z) :
  stored f t = Some (PList turns) →
  (n < 0)%Z →
  load f t (Some n) = Ok (PList (drop (Z.to_nat (- n)) turns)).
Proof.
  unfold stored, load. destruct (_load_all f) as [| | | | |d]; try done.
  intros Ht Hn. cbn. rewrite Ht. cbn.
  destruct (Z.eqb_spec n 0) as [->|_]; [lia|]. cbn.
  unfold slice_from. rewrite clamp_head by lia.
  destruct (Nat.le_gt_cases (Z.to_nat (- n)) (length turns)).
  - by rewrite Nat.min_l.
  - rewrite Nat.min_r by lia. by rewrite !drop_ge by lia.
Qed.

Lemma load_negative_limit_witness :
  load two_threads "t" (Some (-1)%Z) = Ok (PList [PInt 2; PInt 3]).
Proof.
  apply (load_negative_limit two_threads "t" [PInt 1; PInt 2; PInt 3] (-1)).
  - reflexivity.
  - lia.
Defined.

(** X7.  On a parsable document that is not a dict, every operation
    raises: [load] an [AttributeError], [append] and [clear] a
    [TypeError]. *)
Theorem operations_raise_on_non_dict (v : pyval) t (entries : list pyval)
    (last_n : option Z) :
  (∀ d, v ≠ PDict d) →
  (∃ e, load (Document v) t last_n = Raise e ∧ exn_cls e = AttributeError)
  ∧ (∃ e, append (Document v) t entries = Raise e ∧ exn_cls e = TypeError)
  ∧ (∃ e, clear (Document v) t = Raise e ∧ exn_cls e = TypeError).
Proof.
  intros Hv. destruct v as [| | | | |d]; try (by destruct (Hv d));
    (split; [|split]); eexists; split; reflexivity.
Qed.

Lemma operations_raise_on_non_dict_witness :
  (∃ e, load (Document (PList [])) "t" None = Raise e
        ∧ exn_cls e = AttributeError)
  ∧ (∃ e, append (Document (PList [])) "t" [PInt 1] = Raise e
          ∧ exn_cls e = TypeError)
  ∧ (∃ e, clear (Document (PList [])) "t" = Raise e ∧ exn_cls e = TypeError).
Proof.
  apply (operations_raise_on_non_dict (PList []) "t" [PInt 1] None).
  intros d. discriminate.
Defined.

End JsonHistoryMore.

(** ** More on the extractor and the summary *)

Module ExtractionMore.
Import AgentDataExtraction AgentLogging ExtractionReadings Client Scenarios.

Implicit Types (ms : list entry) (s : scan) (d : agent_data).

Lemma scan_final_ai ms s :
  final_ai (fold_left scan_step ms s)
  = from_option Some (final_ai s) (last (omap as_answer ms)).
Proof.
  revert s. induction ms as [|e ms IH]; intros s; [reflexivity|].
  cbn [fold_left]. rewrite IH.
  change (omap as_answer (e :: ms))
    with (match as_answer e with
          | Some y => y :: omap as_answer ms
          | None => omap as_answer ms
          end).
  destruct e as [m|items]; cbn [as_answer scan_step final_ai]; [|done].
  destruct (String.eqb (class_name m) "AIMessage" && truthy (content m));
    [|done].
  rewrite last_cons. by destruct (last (omap as_answer ms)).
Qed.

Lemma scan_messages_final_ai ms :
  final_ai (scan_messages ms) = last_answer ms.
Proof.
  unfold scan_messages, last_answer. rewrite scan_final_ai.
  by destruct (last (omap as_answer ms)).
Qed.

(** The record the extractor returns, field by field, in terms of the
    three messages the loop ends on. *)
Lemma extract_fields (response : AgentResponse) d :
  extract_agent_data response = Ok d →
  let ms := default [] (messages response) in
  final_message d = from_option content PNone (last_answer ms)
  ∧ model d
    = from_option (λ ai, default PNone (response_metadata ai !! "model_name"))
        PNone (last_answer ms)
  ∧ py_get (token_usage_of (last_answer ms)) "prompt_tokens" PNone
    = Ok (prompt (tokens d))
  ∧ py_get (token_usage_of (last_answer ms)) "completion_tokens" PNone
    = Ok (completion (tokens d))
  ∧ py_get (token_usage_of (last_answer ms)) "total_tokens" PNone
    = Ok (total (tokens d))
  ∧ whatsapp_of (last_tool_result ms) = Ok (whatsapp d)
  ∧ success d = truthy (default PNone (whatsapp d !! "message_id")).
Proof.
  intros H ms. unfold extract_agent_data in H. fold ms in H.
  rewrite scan_messages_final_ai in H.
  rewrite ExtractionFacts.scan_messages_tool_call in H.
  rewrite ExtractionFacts.scan_messages_tool_result in H.
  destruct (whatsapp_of (last_tool_result ms)) as [w|]; [|done].
  destruct (call_field (last_tool_call ms) "name") as [n|]; [|done].
  destruct (call_field (last_tool_call ms) "args") as [a|]; [|done].
  cbn in H.
  destruct (py_get _ "prompt_tokens" _) as [p|]; [|done].
  destruct (py_get _ "completion_tokens" _) as [c|]; [|done].
  destruct (py_get _ "total_tokens" _) as [t|]; [|done].
  cbn in H. injection H as <-. cbn.
  by destruct (last_answer ms).
Qed.

(** X8.  The final message, the model name and the three token counts
    all come from the last assistant message, in arrival order, whose
    content is not empty; an assistant message with empty content after
    it changes none of them. *)
Theorem final_answer_is_last_non_empty (response : AgentResponse) d :
  extract_agent_data response = Ok d →
  let ms := default [] (messages response) in
  final_message d = from_option content PNone (last_answer ms)
  ∧ model d
    = from_option (λ ai, default PNone (response_metadata ai !! "model_name"))
        PNone (last_answer ms)
  ∧ py_get (token_usage_of (last_answer ms)) "prompt_tokens" PNone
    = Ok (prompt (tokens d))
  ∧ py_get (token_usage_of (last_answer ms)) "completion_tokens" PNone
    = Ok (completion (tokens d))
  ∧ py_get (token_usage_of (last_answer ms)) "total_tokens" PNone
    = Ok (total (tokens d)).
Proof.
  intros H ms.
  destruct (extract_fields response d H) as (?&?&?&?&?&_). by repeat split.
Qed.

Lemma final_answer_is_last_non_empty_witness :
  ∃ d, extract_agent_data (response [ai "Sent." []; ai "" []]) = Ok d
       ∧ final_message d = PStr "Sent.".
Proof.
  destruct (extract_agent_data (response [ai "Sent." []; ai "" []]))
    as [d|e] eqn:Hd.
  - exists d. split; [done|].
    by destruct (final_answer_is_last_non_empty _ d Hd) as (-> & _).
  - vm_compute in Hd. discriminate Hd.
Defined.

Lemma scan_step_irrelevant s e : relevant e = false → scan_step s e = s.
Proof.
  unfold relevant. destruct e as [m|items]; [|done].
  cbn [as_answer carried as_tool_result scan_step].
  destruct (String.eqb (class_name m) "AIMessage" && truthy (content m));
    [done|].
  destruct (tool_calls m) as [[|first rest]|]; try done;
    destruct (String.eqb (class_name m) "ToolMessage"); try done;
    intros _; by destruct s.
Qed.

Lemma scan_filter_relevant ms s :
  fold_left scan_step (filter (λ e, relevant e = true) ms) s
  = fold_left scan_step ms s.
Proof.
  revert s. induction ms as [|e ms IH]; intros s; [done|].
  destruct (relevant e) eqn:He.
  - rewrite filter_cons_True by done. cbn [fold_left]. apply IH.
  - rewrite filter_cons_False by (rewrite He; done).
    cbn [fold_left]. rewrite (scan_step_irrelevant s e He). apply IH.
Qed.

(** X9.  Tuples, messages of other classes without tool calls, and
    assistant messages with neither content nor tool calls do not count:
    the extractor returns the same on the list without them. *)
Theorem irrelevant_messages_ignored ms (text text' : string) :
  extract_agent_data
    {| messages := Some (filter (λ e, relevant e = true) ms);
       as_text := text |}
  = extract_agent_data {| messages := Some ms; as_text := text' |}.
Proof.
  unfold extract_agent_data, scan_messages.
  cbn [messages default from_option]. unfold id.
  by rewrite scan_filter_relevant.
Qed.

(** X10.  With no ["messages"] key, an empty list, or a list in which
    no element counts, the extractor returns [None] for every field, an
    empty payload and [success = False]. *)
Theorem nothing_relevant_gives_defaults (response : AgentResponse) :
  (∀ e, e ∈ default [] (messages response) → relevant e = false) →
  extract_agent_data response = Ok nothing_found.
Proof.
  intros Hnone.
  assert (filter (λ e, relevant e = true) (default [] (messages response))
          = []) as Hfilter.
  { induction (default [] (messages response)) as [|e ms IH]; [done|].
    rewrite filter_cons_False.
    - apply IH. intros e' He'. apply Hnone. by right.
    - rewrite (Hnone e); [done|by left]. }
  unfold extract_agent_data, scan_messages.
  by rewrite <- scan_filter_relevant, Hfilter.
Qed.

Lemma nothing_relevant_gives_defaults_witness :
  extract_agent_data
    (response [Tuple [PStr "user"; PStr "hi"]; ai "" []])
  = Ok nothing_found.
Proof.
  apply (nothing_relevant_gives_defaults
           (response [Tuple [PStr "user"; PStr "hi"]; ai "" []])).
  intros e He. cbn in He.
  apply elem_of_cons in He as [->|He]; [reflexivity|].
  apply elem_of_cons in He as [->|He]; [reflexivity|].
  by apply elem_of_nil in He.
Defined.

(** X11.  [success] is true only when the response has a tool-result
    message whose artifact is not empty and whose payload gives a
    message id that is not empty; without a tool-result message the
    payload is empty and [success] is false. *)
Theorem success_needs_message_id (response : AgentResponse) d :
  extract_agent_data response = Ok d →
  let ms := default [] (messages response) in
  (success d = true →
   ∃ m id, last_tool_result ms = Some m
           ∧ truthy (artifact m) = true
           ∧ whatsapp d !! "message_id" = Some id
           ∧ truthy id = true)
  ∧ (last_tool_result ms = None → whatsapp d = ∅ ∧ success d = false).
Proof.
  intros H ms.
  destruct (extract_fields response d H) as (_&_&_&_&_& Hw & Hs).
  fold ms in Hw. rewrite Hs. split.
  - intros Hid. destruct (last_tool_result ms) as [m|];
      unfold whatsapp_of in Hw.
    + destruct (truthy (artifact m)) eqn:Hart.
      * exists m. destruct (whatsapp d !! "message_id") as [id|]; [|done].
        by exists id.
      * injection Hw as Hw. rewrite <- Hw in Hid.
        by rewrite lookup_empty in Hid.
    + injection Hw as Hw. rewrite <- Hw in Hid.
      by rewrite lookup_empty in Hid.
  - intros Hnone. rewrite Hnone in Hw. injection Hw as Hw.
    rewrite <- Hw. by rewrite lookup_empty.
Qed.

Lemma success_needs_message_id_witness :
  ∃ d, extract_agent_data two_calls = Ok d
       ∧ whatsapp d !! "message_id" = Some (PStr "wamid.2").
Proof.
  destruct (extract_agent_data two_calls) as [d|e] eqn:Hd.
  - exists d. split; [done|].
    destruct (success_needs_message_id two_calls d Hd) as [Hyes _].
    destruct Hyes as (m & id & Hm & _ & Hid & _).
    + vm_compute in Hd. by injection Hd as <-.
    + rewrite Hid. f_equal.
      vm_compute in Hd. injection Hd as <-.
      vm_compute in Hid. by injection Hid as <-.
  - vm_compute in Hd. discriminate Hd.
Defined.

(** X12.  The two extractions agree on a response that ends with an
    assistant message with content: [_extract_text] returns that content,
    and so does the [final_message] of [extract_agent_data]. *)
Theorem extractions_agree_on_final_answer (response : AgentResponse)
    ms (m : message) :
  messages response = Some ms →
  last ms = Some (Object m) →
  class_name m = "AIMessage" →
  truthy (content m) = true →
  _extract_text response = Ok (content m)
  ∧ ∀ d, extract_agent_data response = Ok d → final_message d = content m.
Proof.
  intros Hms Hlast Hcls Hcontent. split.
  - unfold _extract_text. by rewrite Hms, Hlast.
  - intros d Hd.
    destruct (extract_fields response d Hd) as (-> & _).
    apply last_Some in Hlast as [ms' ->]. rewrite Hms.
    change (default [] (Some (ms' ++ [Object m]))) with (ms' ++ [Object m]).
    unfold last_answer. rewrite omap_app.
    change (omap as_answer [Object m])
      with (match as_answer (Object m) with
            | Some y => [y]
            | None => []
            end).
    cbn [as_answer]. rewrite Hcls, Hcontent, String.eqb_refl. cbn [andb].
    by rewrite last_snoc.
Qed.

Lemma extractions_agree_on_final_answer_witness :
  _extract_text two_calls = Ok (PStr "Done")
  ∧ ∀ d, extract_agent_data two_calls = Ok d → final_message d = PStr "Done".
Proof.
  apply (extractions_agree_on_final_answer two_calls
           [ ai "" [call "send_message"];
             tool_message (delivered "wamid.1");
             ai "" [call "send_template"];
             tool_message (delivered "wamid.2");
             ai "Done" [] ]
           {| class_name := "AIMessage"; content := PStr "Done";
              tool_calls := Some []; response_metadata := ∅;
              artifact := PNone |}); reflexivity.
Defined.

(** X13.  [normalize_model_name] is idempotent: a name it returned is
    returned unchanged. *)
Theorem normalize_model_name_idempotent (model : pyval) (base : string) :
  normalize_model_name model = Ok base →
  normalize_model_name (PStr base) = Ok base.
Proof.
  unfold normalize_model_name.
  destruct (truthy model) eqn:Hm; cbn [negb].
  - destruct model as [| | |name| |]; try done.
    destruct (String.prefix "gpt-4o-mini" name) eqn:Hp.
    + by intros [= <-].
    + intros [= <-]. cbn in Hm. cbn [truthy]. rewrite Hm. cbn [negb].
      by rewrite Hp.
  - by intros [= <-].
Qed.

Lemma normalize_model_name_idempotent_witness :
  normalize_model_name (PStr "gpt-4o-mini") = Ok "gpt-4o-mini".
Proof.
  apply (normalize_model_name_idempotent
           (PStr "gpt-4o-mini-2024-07-18") "gpt-4o-mini").
  reflexivity.
Defined.



End ExtractionMore.

(** ** More on the session *)

Module ClientMore.
Import JsonHistory AgentDataExtraction AgentLogging McpServers Client.
Import ExtractionReadings ClientReadings Scenarios MoreScenarios.

(** *** The exceptions the turn's own steps raise *)

Lemma raises_only_ok (P : exn → Prop) {A} (a : A) : raises_only P (Ok a).
Proof. by intros e. Qed.

Lemma raises_only_bind (P : exn → Prop) {A B} (m : result A)
    (k : A → result B) :
  raises_only P m → (∀ a, raises_only P (k a)) → raises_only P (m ≫= k).
Proof.
  intros Hm Hk e. destruct m as [a|e0]; cbn.
  - apply Hk.
  - intros [= <-]. by apply Hm.
Qed.

Lemma py_get_ordinary v key dflt : raises_only ordinary (py_get v key dflt).
Proof. intros e. destruct v; try done; by intros [= <-]. Qed.

Lemma py_first_ordinary v : raises_only ordinary (py_first v).
Proof.
  intros e. destruct v as [| | |s|l|]; try (by intros [= <-]).
  - by destruct s; intros [= <-].
  - by destruct l; intros [= <-].
Qed.

Lemma py_item_ordinary v key : raises_only ordinary (py_item v key).
Proof.
  intros e. destruct v as [| | | | |d]; try (by intros [= <-]).
  cbn. by destruct (d !! key); intros [= <-].
Qed.

(** The first step of a sequence is closed by [tac]; the rest stays. *)
Ltac next_ tac :=
  apply raises_only_bind; [tac | intros ?].

Lemma whatsapp_of_ordinary tr : raises_only ordinary (whatsapp_of tr).
Proof.
  unfold whatsapp_of. destruct tr as [m|]; [|apply raises_only_ok].
  destruct (truthy (artifact m)); [|apply raises_only_ok].
  next_ ltac:(apply py_get_ordinary).
  next_ ltac:(apply py_get_ordinary).
  next_ ltac:(apply py_get_ordinary).
  next_ ltac:(apply py_first_ordinary).
  next_ ltac:(apply py_get_ordinary).
  next_ ltac:(apply py_get_ordinary).
  next_ ltac:(apply py_first_ordinary).
  next_ ltac:(apply py_get_ordinary).
  apply raises_only_ok.
Qed.

Lemma call_field_ordinary tc key : raises_only ordinary (call_field tc key).
Proof.
  unfold call_field. destruct tc as [v|]; [|apply raises_only_ok].
  destruct (truthy v); [apply py_get_ordinary | apply raises_only_ok].
Qed.

Lemma extract_agent_data_ordinary response :
  raises_only ordinary (extract_agent_data response).
Proof.
  unfold extract_agent_data.
  next_ ltac:(apply whatsapp_of_ordinary).
  next_ ltac:(apply call_field_ordinary).
  next_ ltac:(apply call_field_ordinary).
  next_ ltac:(apply py_get_ordinary).
  next_ ltac:(apply py_get_ordinary).
  next_ ltac:(apply py_get_ordinary).
  apply raises_only_ok.
Qed.

Lemma times_price_ordinary v : raises_only ordinary (times_price v).
Proof. intros e. destruct v; try done; by intros [= <-]. Qed.

Lemma print_agent_summary_ordinary d :
  raises_only ordinary (print_agent_summary d).
Proof.
  unfold print_agent_summary, calculate_llm_cost.
  next_ ltac:(idtac).
  - unfold normalize_model_name. intros e.
    destruct (negb (truthy (model d))); [done|].
    destruct (model d) as [| | |name| |]; try (by intros [= <-]).
    by destruct (String.prefix "gpt-4o-mini" name).
  - destruct (String.eqb a "gpt-4o-mini"); [|apply raises_only_ok].
    next_ ltac:(apply times_price_ordinary). apply times_price_ordinary.
Qed.

Lemma extract_text_ordinary response :
  raises_only ordinary (_extract_text response).
Proof.
  intros e. unfold _extract_text.
  destruct (messages response) as [ms|]; [|done].
  destruct (last ms) as [[m|items]|]; try done; try (by intros [= <-]).
  by destruct (items !! 1%nat); intros [= <-].
Qed.

Lemma append_ordinary f t entries : raises_only ordinary (append f t entries).
Proof.
  intros e. unfold append.
  destruct (_load_all f) as [| | | | |d]; try (by intros [= <-]).
  destruct (_ !! t) as [[]|]; try done; by intros [= <-].
Qed.

Lemma role_and_content_ordinary h : raises_only ordinary (role_and_content h).
Proof.
  unfold role_and_content.
  next_ ltac:(apply py_item_ordinary).
  next_ ltac:(apply py_item_ordinary).
  apply raises_only_ok.
Qed.

Lemma prompt_state_ordinary history user_input :
  raises_only ordinary (prompt_state history user_input).
Proof.
  unfold prompt_state. next_ ltac:(idtac); [|apply raises_only_ok].
  induction history as [|h history IH]; [apply raises_only_ok|].
  cbn [mapM]. next_ ltac:(apply role_and_content_ordinary).
  next_ ltac:(apply IH). apply raises_only_ok.
Qed.

(** *** One turn *)

Section WithWorld.
Context (W : world).

(** How the [try] block of [invoke] ends: it raises and nothing has
    changed, the exception being one of its own or the agent's; or every
    step went through, and the store and the tail hold the new pair. *)
Lemma invoke_body_cases (now user_input : string) s r s1 :
  invoke_body W now user_input s = (r, s1) →
  (∃ e, r = Raise e ∧ s1 = s
        ∧ (ordinary e
           ∨ ∃ a messages,
               agent (client s) = Some a
               ∧ prompt_state (history (client s)) user_input = Ok messages
               ∧ a messages = Raise e))
  ∨ (∃ a messages response message f',
       agent (client s) = Some a
       ∧ prompt_state (history (client s)) user_input = Ok messages
       ∧ a messages = Ok response
       ∧ _extract_text response = Ok message
       ∧ append (file s) (thread_id (client s))
           [ stored_turn "user" (PStr user_input) now;
             stored_turn "assistant" message now ] = Ok f'
       ∧ r = Ok message
       ∧ s1 = State (set_history
                       (history (client s)
                        ++ [ tail_turn "user" (PStr user_input);
                             tail_turn "assistant" message ])
                       (client s))
                    (trace s) f').
Proof.
  unfold invoke_body.
  rewrite ClientFacts.bind_run. unfold lift at 1.
  destruct (prompt_state (history (client s)) user_input)
    as [messages|e0] eqn:Hstate.
  2: { intros [= <- <-]. left. exists e0. split; [done|]. split; [done|].
       left. by eapply prompt_state_ordinary. }
  rewrite ClientFacts.bind_run. unfold lift at 1.
  destruct (agent (client s)) as [a|] eqn:Hagent.
  2: { intros [= <- <-]. left. eexists. split; [done|]. split; [done|].
       by left. }
  destruct (a messages) as [response|e0] eqn:Hcall.
  2: { intros [= <- <-]. left. exists e0. split; [done|]. split; [done|].
       right. by exists a, messages. }
  rewrite ClientFacts.bind_run.
  assert (∀ e0 : exn,
            (agent_data ← extract_agent_data response;
             print_agent_summary agent_data) = Raise e0 → ordinary e0)
    as Hdiag.
  { apply raises_only_bind; [apply extract_agent_data_ordinary|].
    intros d. apply print_agent_summary_ordinary. }
  destruct (ENABLE_AGENT_DEBUG W).
  - unfold lift at 1.
    destruct (agent_data ← extract_agent_data response;
              print_agent_summary agent_data) as [[]|e0] eqn:Hsum.
    2: { intros [= <- <-]. left. exists e0. split; [done|]. split; [done|].
         left. by apply Hdiag. }
    rewrite ClientFacts.bind_run. unfold lift at 1.
    destruct (_extract_text response) as [message|e0] eqn:Htext.
    2: { intros [= <- <-]. left. exists e0. split; [done|]. split; [done|].
         left. by eapply extract_text_ordinary. }
    rewrite ClientFacts.bind_run. unfold store_append at 1.
    destruct (append _ _ _) as [f'|e0] eqn:Happ.
    2: { intros [= <- <-]. left. exists e0. split; [done|]. split; [done|].
         left. by eapply append_ordinary. }
    intros [= <- <-]. right. by exists a, messages, response, message, f'.
  - cbn [mret act_ret].
    rewrite ClientFacts.bind_run. unfold lift at 1.
    destruct (_extract_text response) as [message|e0] eqn:Htext.
    2: { intros [= <- <-]. left. exists e0. split; [done|]. split; [done|].
         left. by eapply extract_text_ordinary. }
    rewrite ClientFacts.bind_run. unfold store_append at 1.
    destruct (append _ _ _) as [f'|e0] eqn:Happ.
    2: { intros [= <- <-]. left. exists e0. split; [done|]. split; [done|].
         left. by eapply append_ordinary. }
    intros [= <- <-]. right. by exists a, messages, response, message, f'.
Qed.

End WithWorld.

Section Turns.
Context (W : world).

Lemma invoke_run (now user_input : string) s :
  invoke W now user_input s
  = match invoke_body W now user_input s with
    | (Raise e, s') =>
        if is_TimeoutError e then (Ok (PStr TIMEOUT_REPLY), s')
        else if is_Exception e then (Ok (PStr FAILURE_REPLY), s')
        else (Raise e, s')
    | done => done
    end.
Proof. reflexivity. Qed.

Lemma invoke_of_ordinary (now user_input : string) s e :
  invoke_body W now user_input s = (Raise e, s) →
  ordinary e →
  invoke W now user_input s = (Ok (PStr FAILURE_REPLY), s).
Proof. intros Hb [He Ht]. by rewrite invoke_run, Hb, Ht, He. Qed.

(** X15.  On a session that has no agent ([connect] was not called, or
    it failed), [invoke] returns the technical-issue reply and changes
    nothing. *)
Theorem invoke_before_connect (now user_input : string) s :
  agent (client s) = None →
  invoke W now user_input s = (Ok (PStr FAILURE_REPLY), s).
Proof.
  intros Hnone.
  destruct (invoke_body W now user_input s) as [r s1] eqn:Hb.
  destruct (invoke_body_cases W now user_input s r s1 Hb)
    as [(e & -> & -> & [Hord|(a & ? & Ha & _)])|(a & ? & ? & ? & ? & Ha & _)];
    try congruence.
  by apply invoke_of_ordinary with e.
Qed.


(** X17.  [invoke] raises only what the agent call itself raised, and
    only when that is no [Exception]; the state is then unchanged. *)
Theorem invoke_raises_only_for_agent (now user_input : string) s e s1 :
  invoke W now user_input s = (Raise e, s1) →
  is_Exception e = false
  ∧ s1 = s
  ∧ ∃ a messages,
      agent (client s) = Some a
      ∧ prompt_state (history (client s)) user_input = Ok messages
      ∧ a messages = Raise e.
Proof.
  rewrite invoke_run.
  destruct (invoke_body W now user_input s) as [r0 s0] eqn:Hb.
  destruct (invoke_body_cases W now user_input s r0 s0 Hb)
    as [(e0 & -> & -> & Horigin)|(? & ? & ? & ? & ? & _ & _ & _ & _ & _
                                  & -> & _)]; [|done].
  destruct (is_TimeoutError e0) eqn:Ht; [done|].
  destruct (is_Exception e0) eqn:He; [done|].
  intros [= <- <-]. split; [done|]. split; [done|].
  destruct Horigin as [[He' _]|?]; [congruence|done].
Qed.


(** X19.  Building the prompt replays the history: when every entry of
    the tail is a dict with a role and a content, the prompt is the system
    message, then those roles and contents in the order of the tail, then
    the new user turn. *)
Theorem prompt_state_replays (history : list pyval)
    (turns : list (pyval * pyval)) (user_input : string) :
  Forall2 has_role_and_content history turns →
  prompt_state history user_input
  = Ok ([SYSTEM_MESSAGE] ++ turns ++ [(PStr "user", PStr user_input)]).
Proof.
  intros Hturns. unfold prompt_state.
  assert (mapM role_and_content history = Ok turns) as Hpast.
  { induction Hturns
      as [|h [role content] history turns (d & -> & Hr & Hc) _ IH]; [done|].
    cbn [mapM]. rewrite IH. unfold role_and_content, py_item.
    cbn [fst snd] in Hr, Hc. by rewrite Hr, Hc. }
  by rewrite Hpast.
Qed.

Lemma mapM_raises (history : list pyval) h e0 :
  h ∈ history → role_and_content h = Raise e0 →
  ∃ e, mapM role_and_content history = Raise e.
Proof.
  intros Hin Hh. induction history as [|h' history IH].
  - by apply elem_of_nil in Hin.
  - cbn [mapM]. destruct (role_and_content h') as [turn|e] eqn:Hh'.
    + apply elem_of_cons in Hin as [->|Hin]; [congruence|].
      destruct (IH Hin) as [e ->]. by exists e.
    + by exists e.
Qed.

(** X20.  One entry of the in-memory tail without a role or a content
    (or that is no dict) makes every turn fail: [invoke] returns the
    technical-issue reply, the agent is not called and nothing changes. *)
Theorem broken_tail_fails_every_turn (now user_input : string) s h e0 :
  h ∈ history (client s) →
  role_and_content h = Raise e0 →
  invoke W now user_input s = (Ok (PStr FAILURE_REPLY), s).
Proof.
  intros Hin Hh.
  destruct (mapM_raises _ h e0 Hin Hh) as [e He].
  assert (prompt_state (history (client s)) user_input = Raise e) as Hstate.
  { unfold prompt_state. by rewrite He. }
  apply invoke_of_ordinary with e.
  - unfold invoke_body. rewrite ClientFacts.bind_run. unfold lift at 1.
    by rewrite Hstate.
  - by eapply prompt_state_ordinary.
Qed.

End Turns.

Lemma invoke_before_connect_witness :
  invoke (calm false) noon "hi" (fresh [remote_server])
  = (Ok (PStr FAILURE_REPLY), fresh [remote_server]).
Proof.
  apply (invoke_before_connect (calm false) noon "hi" (fresh [remote_server])).
  reflexivity.
Defined.


Lemma invoke_raises_only_for_agent_witness :
  is_Exception (Exn CancelledError "") = false
  ∧ connected (failing (Exn CancelledError ""))
    = connected (failing (Exn CancelledError ""))
  ∧ ∃ a messages,
      agent (client (connected (failing (Exn CancelledError "")))) = Some a
      ∧ prompt_state
          (history (client (connected (failing (Exn CancelledError "")))))
          "hi" = Ok messages
      ∧ a messages = Raise (Exn CancelledError "").
Proof.
  apply (invoke_raises_only_for_agent (calm false) noon "hi"
           (connected (failing (Exn CancelledError "")))).
  reflexivity.
Defined.


Lemma prompt_state_replays_witness :
  prompt_state [ stored_turn "user" (PStr "hi") noon;
                 tail_turn "assistant" (PStr "Hello") ] "again"
  = Ok ([SYSTEM_MESSAGE]
        ++ [(PStr "user", PStr "hi"); (PStr "assistant", PStr "Hello")]
        ++ [(PStr "user", PStr "again")]).
Proof.
  apply (prompt_state_replays
           [ stored_turn "user" (PStr "hi") noon;
             tail_turn "assistant" (PStr "Hello") ]
           [(PStr "user", PStr "hi"); (PStr "assistant", PStr "Hello")]
           "again").
  repeat constructor; eexists; (split; [reflexivity|]); split; reflexivity.
Defined.

Lemma broken_tail_fails_every_turn_witness :
  invoke (calm false) noon "hi"
    (State (set_history [PDict {[ "content" := PStr "hi" ]}]
              (client (connected (answering two_calls))))
       [] Missing)
  = (Ok (PStr FAILURE_REPLY),
     State (set_history [PDict {[ "content" := PStr "hi" ]}]
              (client (connected (answering two_calls))))
       [] Missing).
Proof.
  apply (broken_tail_fails_every_turn (calm false) noon "hi" _
           (PDict {[ "content" := PStr "hi" ]})
           (Exn KeyError "role")).
  - apply list_elem_of_In. by left.
  - reflexivity.
Defined.

(** *** Connecting and closing *)

Section Connections.
Context (W : world).

(** The tools found so far are carried along unchanged. *)
Lemma connect_servers_from specs found s :
  connect_servers W specs found s
  = match connect_servers W specs [] s with
    | (Ok more, s') => (Ok (found ++ more), s')
    | (Raise e, s') => (Raise e, s')
    end.
Proof.
  revert found s. induction specs as [|spec rest IH]; intros found s.
  - cbn. by rewrite app_nil_r.
  - cbn [connect_servers]. rewrite !ClientFacts.bind_run.
    destruct (connect_one W spec s) as [[more|e] s1]; [|done].
    rewrite (IH (found ++ more)), (IH ([] ++ more)).
    destruct (connect_servers W rest [] s1) as [[more'|e] s2]; [|done].
    by rewrite app_assoc.
Qed.

(** X21.  The tools of the servers are concatenated in the order of the
    servers, duplicates included: connecting [xs ++ ys] finds the tools
    found for [xs] followed by those found for [ys]. *)
Theorem tools_are_concatenated (xs ys : list MCPServerSpec) s found s2 :
  connect_servers W (xs ++ ys) [] s = (Ok found, s2) →
  ∃ a b s1,
    connect_servers W xs [] s = (Ok a, s1)
    ∧ connect_servers W ys [] s1 = (Ok b, s2)
    ∧ found = a ++ b.
Proof.
  revert s found. induction xs as [|x xs IH]; intros s found.
  - cbn [app]. intros H. by exists [], found, s.
  - cbn [app connect_servers]. rewrite !ClientFacts.bind_run.
    destruct (connect_one W x s) as [[more|e] s0]; [|done].
    rewrite (connect_servers_from (xs ++ ys)), (connect_servers_from xs).
    destruct (connect_servers W (xs ++ ys) [] s0) as [[rest|e] s3] eqn:Hrest;
      [|done].
    intros [= <- <-].
    destruct (IH s0 rest Hrest) as (a & b & s1 & -> & Hys & ->).
    exists (([] ++ more) ++ a), b, s1. split; [done|]. split; [done|].
    by rewrite app_assoc.
Qed.

(** X22.  When [connect] returns, every server connected, at least one
    tool was found, the session holds exactly the tools found and the
    agent built from them, and the history and the store are as before. *)
Theorem connect_binds_agent_to_tools s s1 :
  connect W s = (Ok (), s1) →
  ∃ found a s0,
    connect_servers W (servers (client s)) [] s = (Ok found, s0)
    ∧ found ≠ []
    ∧ create_agent W found = Ok a
    ∧ tools (client s1) = found
    ∧ agent (client s1) = Some a
    ∧ history (client s1) = history (client s)
    ∧ file s1 = file s
    ∧ trace s1 = trace s0
    ∧ exit_stack (client s1) = exit_stack (client s0).
Proof.
  unfold connect, connect_body. rewrite ClientFacts.bind_run.
  destruct (connect_servers W (servers (client s)) [] s)
    as [[found|e] s0] eqn:Hloop; [|done].
  pose proof (ClientFacts.connect_servers_grows W _ _ _ _ _ Hloop)
    as (_ & (_ & Hh & _ & _ & Hf) & _).
  rewrite ClientFacts.bind_run.
  destruct (bool_decide (found = [])) eqn:Hnil; [done|].
  apply bool_decide_eq_false in Hnil.
  cbn. destruct (create_agent W found) as [a|e] eqn:Ha; cbn; [|done].
  intros [= <-]. by exists found, a, s0.
Qed.

(** X23.  After a [connect] that returned, [close] runs the exit
    callback of every resource [connect] opened, latest first, and
    leaves the exit stack empty; tools and agent stay as [connect] set
    them. *)
Theorem connect_then_close_releases_all s s1 :
  connect W s = (Ok (), s1) →
  exit_stack (client s) = [] →
  ∃ evs r s2,
    trace s1 = trace s ++ evs
    ∧ close W s1 = (r, s2)
    ∧ exit_stack (client s2) = []
    ∧ trace s2 = trace s1 ++ map Released (reverse (opened_in evs))
    ∧ tools (client s2) = tools (client s1)
    ∧ agent (client s2) = agent (client s1).
Proof.
  intros Hc Hstack.
  destruct (ClientFacts.close_after_connect W s _ s1 Hc)
    as (evs & r & s2 & Ht & Hclose & Hs2 & Ht2 & _).
  exists evs, r, s2. rewrite Hstack, app_nil_r in Ht2.
  split; [done|]. split; [done|]. split; [done|]. split; [done|].
  destruct (ClientFacts.close_run W s1) as [r' Hr'].
  rewrite Hr' in Hclose. by injection Hclose as _ <-.
Qed.


(** X25.  A stdio descriptor without a path stops [connect] with an
    [AttributeError] before anything is opened for it. *)
Theorem stdio_spec_needs_path spec s :
  transport spec = "stdio" →
  path spec = None →
  ∃ e, connect_one W spec s = (Raise e, s) ∧ exn_cls e = AttributeError.
Proof.
  intros Ht Hp. unfold connect_one, _connect_stdio.
  rewrite Ht, Hp. cbn. by eexists.
Qed.

(** Connecting never releases anything. *)
#[local] Instance releases_nothing_preorder : PreOrder releases_nothing.
Proof.
  split.
  - intros s. exists []. by rewrite app_nil_r.
  - intros s1 s2 s3 (evs & Ht & Hevs) (evs' & Ht' & Hevs').
    exists (evs ++ evs'). rewrite Ht', Ht, app_assoc. split; [done|].
    by apply Forall_app.
Qed.

Lemma connect_one_releases_nothing spec :
  preserves releases_nothing (connect_one W spec).
Proof.
  assert (∀ ev s, not_a_release ev → releases_nothing s (log ev s)) as Hlog.
  { intros ev s Hev. exists [ev]. split; [done|]. by constructor. }
  assert (∀ g s, releases_nothing s (on_client g s)) as Hcl.
  { intros g s. exists []. split; [by rewrite app_nil_r|constructor]. }
  assert (∀ failure r,
            preserves releases_nothing (enter_async_context failure r))
    as Henter.
  { intros failure r. apply ClientFacts.preserves_bind; [apply _ | |].
    - apply ClientFacts.preserves_attempt, _.
    - intros _. apply ClientFacts.preserves_update. intros s.
      etrans; [apply (Hcl (push_resource r))|]. by apply Hlog. }
  unfold connect_one.
  destruct (String.eqb (transport spec) "stdio").
  { unfold _connect_stdio.
    ClientFacts.then_ ltac:(apply ClientFacts.preserves_lift, _).
    ClientFacts.then_ ltac:(apply Henter).
    ClientFacts.then_ ltac:(apply Henter).
    ClientFacts.then_ ltac:(apply ClientFacts.preserves_attempt, _).
    ClientFacts.then_ ltac:(apply ClientFacts.preserves_update, Hcl).
    ClientFacts.then_ ltac:(apply ClientFacts.preserves_lift, _).
    apply ClientFacts.preserves_ret, _. }
  destruct (String.eqb (transport spec) "http").
  { unfold _connect_http.
    ClientFacts.then_ ltac:(apply ClientFacts.preserves_update;
                            intros ?; by apply Hlog).
    apply ClientFacts.preserves_lift, _. }
  apply ClientFacts.preserves_throw, _.
Qed.

Lemma connect_releases_nothing s r s1 :
  connect W s = (r, s1) → releases_nothing s s1.
Proof.
  assert (∀ specs found,
            preserves releases_nothing (connect_servers W specs found))
    as Hloop.
  { induction specs as [|spec rest IH]; intros found.
    - apply ClientFacts.preserves_ret, _.
    - cbn [connect_servers].
      apply ClientFacts.preserves_bind;
        [apply _ | apply connect_one_releases_nothing |].
      intros more. apply IH. }
  unfold connect, connect_body. rewrite ClientFacts.bind_run.
  destruct (connect_servers W (servers (client s)) [] s)
    as [[found|e0] s0] eqn:Hl; apply Hloop in Hl.
  2: { by intros [= <- <-]. }
  rewrite ClientFacts.bind_run. destruct (bool_decide (found = [])).
  { cbn. by intros [= <- <-]. }
  cbn. destruct (create_agent W found) as [a|e0]; cbn;
    intros [= <- <-]; destruct Hl as (evs & Ht & Hevs); by exists evs.
Qed.

End Connections.

Lemma tools_are_concatenated_witness :
  ∃ a b s1,
    connect_servers (calm false) [local_server] []
      (fresh [local_server; remote_server]) = (Ok a, s1)
    ∧ connect_servers (calm false) [remote_server] [] s1
      = (Ok b, snd (connect_servers (calm false)
                      ([local_server] ++ [remote_server]) []
                      (fresh [local_server; remote_server])))
    ∧ ["send_message"; "send_template"] = a ++ b.
Proof.
  apply (tools_are_concatenated (calm false)
           [local_server] [remote_server]
           (fresh [local_server; remote_server])).
  vm_compute. reflexivity.
Defined.

Lemma connect_binds_agent_to_tools_witness :
  ∃ s1, connect (calm false) (fresh [local_server; remote_server])
        = (Ok (), s1)
        ∧ tools (client s1) = ["send_message"; "send_template"]
        ∧ is_Some (agent (client s1)).
Proof.
  destruct (connect (calm false) (fresh [local_server; remote_server]))
    as [r s1] eqn:Hc.
  assert (r = Ok ()) as ->.
  { apply (f_equal fst) in Hc. vm_compute in Hc. by subst r. }
  exists s1. split; [done|].
  destruct (connect_binds_agent_to_tools (calm false) _ s1 Hc)
    as (found & a & s0 & Hloop & _ & _ & -> & -> & _).
  split; [|by eexists].
  apply (f_equal fst) in Hloop. vm_compute in Hloop. by injection Hloop as <-.
Defined.

Lemma connect_then_close_releases_all_witness :
  ∃ s1 evs r s2,
    connect (calm false) (fresh [local_server; remote_server]) = (Ok (), s1)
    ∧ trace s1 = [] ++ evs
    ∧ close (calm false) s1 = (r, s2)
    ∧ exit_stack (client s2) = []
    ∧ trace s2 = trace s1 ++ map Released (reverse (opened_in evs)).
Proof.
  destruct (connect (calm false) (fresh [local_server; remote_server]))
    as [r0 s1] eqn:Hc.
  assert (r0 = Ok ()) as ->.
  { apply (f_equal fst) in Hc. vm_compute in Hc. by subst r0. }
  destruct (connect_then_close_releases_all (calm false) _ s1 Hc eq_refl)
    as (evs & r & s2 & Ht & Hclose & Hs & Ht2 & _).
  by exists s1, evs, r, s2.
Defined.


Lemma stdio_spec_needs_path_witness :
  ∃ e, connect_one (calm false) pathless (fresh [pathless])
       = (Raise e, fresh [pathless])
       ∧ exn_cls e = AttributeError.
Proof.
  apply (stdio_spec_needs_path (calm false) pathless (fresh [pathless]));
    reflexivity.
Defined.

End ClientMore.

(** ** The entry point and the start-up configuration *)

Module EntrypointFacts.
Import JsonHistory AgentDataExtraction McpServers Client Entrypoint.
Import ClientReadings EnvConfig Scenarios MoreScenarios.

#[local] Instance same_connections_preorder : PreOrder same_connections.
Proof.
  split.
  - by intros s.
  - intros s1 s2 s3 (?&?&?&?&?&?&?) (?&?&?&?&?&?&?).
    repeat split; etrans; eauto.
Qed.

Section WithWorld.
Context (W : world).

Lemma invoke_same_connections (now user_input : string) :
  preserves same_connections (invoke W now user_input).
Proof.
  intros s r s1. rewrite ClientMore.invoke_run.
  destruct (invoke_body W now user_input s) as [r0 s0] eqn:Hb.
  destruct (ClientMore.invoke_body_cases W now user_input s r0 s0 Hb)
    as [(e & -> & -> & _)|(? & ? & ? & ? & ? & _ & _ & _ & _ & _ & -> & ->)].
  - destruct (is_TimeoutError e); [by intros [= <- <-]|].
    by destruct (is_Exception e); intros [= <- <-].
  - by intros [= <- <-].
Qed.

Lemma main_loop_same_connections lines :
  preserves same_connections (main_loop W lines).
Proof.
  induction lines as [|[| |user_input now] rest IH]; cbn [main_loop].
  - apply ClientFacts.preserves_throw, _.
  - apply IH.
  - apply ClientFacts.preserves_ret, _.
  - apply ClientFacts.preserves_bind;
      [apply _ | apply invoke_same_connections | intros _; apply IH].
Qed.

(** X26.  When [connect] raises, [main] raises the same exception
    without calling [close]: everything [connect] opened is still on the
    exit stack and nothing has been released. *)
Theorem main_skips_close_when_connect_fails lines s e s1 :
  connect W s = (Raise e, s1) →
  ∃ evs,
    main W lines s = (Raise e, s1)
    ∧ trace s1 = trace s ++ evs
    ∧ Forall not_a_release evs
    ∧ exit_stack (client s1)
      = reverse (opened_in evs) ++ exit_stack (client s).
Proof.
  intros Hc.
  destruct (ClientFacts.connect_run W s _ s1 Hc) as [(evs & Ht & Hs) _].
  destruct (ClientMore.connect_releases_nothing W s _ s1 Hc)
    as (evs' & Ht' & Hevs).
  assert (evs' = evs) as -> by (apply (app_inv_head (trace s)); congruence).
  exists evs. split; [|done].
  unfold main. by rewrite ClientFacts.bind_run, Hc.
Qed.

(** X27.  Once [connect] has returned, [main] always ends by closing:
    however the loop ends (an [exit], the end of the input, an exception
    out of a turn), every exit callback has run and the exit stack is
    empty. *)
Theorem main_closes_after_the_loop lines s s1 :
  connect W s = (Ok (), s1) →
  ∃ r s2,
    main W lines s = (r, s2)
    ∧ exit_stack (client s2) = []
    ∧ trace s2 = trace s1 ++ map Released (exit_stack (client s1)).
Proof.
  intros Hc. unfold main. rewrite ClientFacts.bind_run, Hc. unfold finally.
  destruct (main_loop W lines s1) as [r1 s1'] eqn:Hloop.
  apply main_loop_same_connections in Hloop as (Ht & Hs & _).
  destruct (ClientFacts.close_run W s1') as [r2 Hclose]. rewrite Hclose.
  rewrite Ht, Hs. destruct r2; eauto.
Qed.

Lemma main_loop_essential lines s :
  main_loop W lines s = main_loop W (essential lines) s.
Proof.
  revert s. unfold essential.
  induction lines as [|[| |user_input now] rest IH]; intros s;
    cbn [main_loop said leaves map app]; try done.
  cbn [fst snd]. rewrite !ClientFacts.bind_run.
  destruct (invoke W now user_input s) as [[v|e] s']; [apply IH|done].
Qed.

(** X28.  The loop depends only on the texts typed before the first
    [exit] and on whether an [exit] is typed: empty lines count for
    nothing, and no line after the [exit] is read. *)
Theorem main_loop_reads_up_to_exit lines lines' s :
  said lines = said lines' →
  leaves lines = leaves lines' →
  main_loop W lines s = main_loop W lines' s.
Proof.
  intros Hsaid Hleaves.
  rewrite (main_loop_essential lines), (main_loop_essential lines').
  unfold essential. by rewrite Hsaid, Hleaves.
Qed.

End WithWorld.

Lemma main_skips_close_when_connect_fails_witness :
  ∃ s1,
    main http_down [Leave] (fresh [local_server; remote_server])
    = (Raise refused, s1)
    ∧ exit_stack (client s1) = [McpSession "local"; StdioPipe "local"]
    ∧ trace s1 = [ Opened (StdioPipe "local"); Opened (McpSession "local");
                   HttpSession "whatsapp" ].
Proof.
  pose (s1 := snd (connect http_down (fresh [local_server; remote_server]))).
  destruct (main_skips_close_when_connect_fails http_down [Leave]
              (fresh [local_server; remote_server]) refused s1)
    as (evs & Hmain & _).
  - vm_compute. reflexivity.
  - exists s1. split; [exact Hmain|]. split; vm_compute; reflexivity.
Defined.

Lemma main_closes_after_the_loop_witness :
  ∃ r s2,
    main (calm false) [Say "hi" noon] (fresh [local_server]) = (r, s2)
    ∧ exit_stack (client s2) = []
    ∧ trace s2 = [ Opened (StdioPipe "local"); Opened (McpSession "local");
                   Released (McpSession "local"); Released (StdioPipe "local") ].
Proof.
  pose (s1 := snd (connect (calm false) (fresh [local_server]))).
  destruct (main_closes_after_the_loop (calm false) [Say "hi" noon]
              (fresh [local_server]) s1)
    as (r & s2 & Hmain & Hs & Ht).
  - vm_compute. reflexivity.
  - exists r, s2. split; [exact Hmain|]. split; [exact Hs|].
    rewrite Ht. vm_compute. reflexivity.
Defined.

Lemma main_loop_reads_up_to_exit_witness :
  main_loop (calm false)
    [Nothing; Say "hi" noon; Nothing; Leave; Say "more" noon]
    (connected (answering two_calls))
  = main_loop (calm false) [Say "hi" noon; Leave]
      (connected (answering two_calls)).
Proof.
  apply (main_loop_reads_up_to_exit (calm false)
           [Nothing; Say "hi" noon; Nothing; Leave; Say "more" noon]
           [Say "hi" noon; Leave]); reflexivity.
Defined.

(** X29.  [load_and_validate_env] returns exactly when each of the three
    required variables is set to a non-empty string; the configuration
    it returns holds their values and the API version, ["v18.0"] when
    that variable is unset. *)
Theorem env_is_validated (environ : gmap string string) :
  ((∃ cfg, load_and_validate_env environ = Ok cfg)
   ↔ ∀ var, var ∈ REQUIRED_ENV_VARS →
            ∃ v, environ !! var = Some v ∧ v ≠ "")
  ∧ ∀ cfg, load_and_validate_env environ = Ok cfg →
      cfg !! "api_token" = Some (environ !! "MCP_API_TOKEN")
      ∧ cfg !! "phone_number_id" = Some (environ !! "PHONE_NUMBER_ID")
      ∧ cfg !! "access_token" = Some (environ !! "WABATOKEN")
      ∧ cfg !! "api_version"
        = Some (Some (default "v18.0" (environ !! "WHATSAPP_API_VERSION"))).
Proof.
  assert (∀ var, unset environ var = false
                 ↔ ∃ v, environ !! var = Some v ∧ v ≠ "") as Hset.
  { intros var. unfold unset. destruct (environ !! var) as [v|].
    - destruct (String.eqb_spec v ""); split; try done.
      + by intros (? & [= <-] & ?).
      + intros _. by exists v.
    - split; [done|]. by intros (? & ? & ?). }
  unfold load_and_validate_env. split.
  - destruct (bool_decide _) eqn:Hm.
    + apply bool_decide_eq_true in Hm. split; [|by eauto].
      intros _ var Hvar. apply Hset.
      destruct (unset environ var) eqn:Hu; [|done].
      assert (var ∈ filter (λ var, unset environ var = true)
                      REQUIRED_ENV_VARS) as Hin
        by (by apply list_elem_of_filter).
      rewrite Hm in Hin. by apply elem_of_nil in Hin.
    + apply bool_decide_eq_false in Hm. split; [by intros [? ?]|].
      intros Hall. destruct Hm.
      induction REQUIRED_ENV_VARS as [|var vars IH]; [done|].
      rewrite filter_cons_False.
      * apply IH. intros var' Hvar'. apply Hall. by right.
      * assert (unset environ var = false) as ->; [|done].
        apply Hset, Hall. by left.
  - intros cfg. destruct (bool_decide _); [|done].
    intros [= <-]. repeat split; by simplify_map_eq.
Qed.

Lemma env_is_validated_witness :
  ∃ cfg, load_and_validate_env full_environ = Ok cfg
         ∧ cfg !! "api_token" = Some (Some "token")
         ∧ cfg !! "api_version" = Some (Some "v18.0").
Proof.
  destruct (load_and_validate_env full_environ) as [cfg|e] eqn:Hcfg.
  - exists cfg. split; [done|].
    destruct (env_is_validated full_environ) as [_ Hvalues].
    destruct (Hvalues cfg Hcfg) as (Htoken & _ & _ & Hversion).
    split; [exact Htoken | exact Hversion].
  - vm_compute in Hcfg. discriminate Hcfg.
Defined.

End EntrypointFacts.
